(** * Sliding-window sender and receiver: a shallow embedding

  The sender ([client.py], class [TCPClient]) and the two receiver
  variants ([server.py] and [server_fixed.py], class [TCPServer]) are
  embedded as pure state-passing functions.

  Modelling conventions.
  - Python integers are [Z]; [len(...)] of a set is [Z.of_nat (size ...)].
  - Python sets are [gset Z]; the [defaultdict(int)] counters are
    [gmap Z Z] read with default [0].
  - [random.random()] is an input of the step that draws it: a rational
    [r] (every float is one), and [random.random() < p] is [r < p] on [Q].
  - The true division [a / b] that computes goodput is the exact ratio in
    [Q]; dividing by zero raises, which is [None] here.
  - The three sender threads run their bodies under one lock, so a run of
    the sender is a list of events, one per loop iteration of a thread (the
    test of the loop together with one pass through its body); the
    interleaving is arbitrary.
  - A message written to the socket is an output of the step.  Socket
    errors, timestamps and logging are not modelled. *)

From Stdlib Require Import ZArith QArith Lia.
From stdpp Require Import gmap strings list fin_sets sorting.

Local Open Scope Z_scope.

(** ** Wire messages *)

Module Wire.

(** The announcement built by [send_packet] and [handle_retransmissions]:
    [{'seq_num': seq_num, 'window_size': self.window_size}]. *)
Record announcement := Announcement {
  seq_num : Z;
  window_size : Z;
}.

(** An acknowledgment is a JSON object with a single integer field whose
    key differs between the receiver variants, hence a map keyed by the
    field name. *)
Definition ack_of_server (seq : Z) : gmap string Z := {[ "ack_num" := seq + 1 ]}.
Definition ack_of_server_fixed (seq : Z) : gmap string Z := {[ "ack" := seq ]}.

End Wire.

(** The exact ratio [a / b]. *)
Definition ratio (a b : Z) : Q := (inject_Z a / inject_Z b)%Q.

(** Python's [a / b] on integers; [None] is [ZeroDivisionError]. *)
Definition py_truediv (a b : Z) : option Q :=
  if b =? 0 then None else Some (ratio a b).

(** A goodput value in the interval (0, 1]. *)
Definition unit_goodput (g : Q) : Prop := (0 < g)%Q ∧ (g <= 1)%Q.

(** ** The sender: [client.py] *)

Module Client.

(** The constructor arguments that are never reassigned. *)
Record config := Config {
  drop_probability : Q;
  retransmit_after : Z;
  total_packets : Z;
}.

(** Control location of the main thread inside [start]: the admission
    loop, the loop that waits for acknowledgments, and past both. *)
Inductive phase := Admitting | Waiting | Finished.

#[global] Instance phase_eq_dec : EqDecision phase.
Proof. solve_decision. Defined.

Record state := State {
  window_size : Z;
  base : Z;
  next_seq_num : Z;
  sent_packets : gset Z;
  acked_packets : gset Z;
  dropped_packets : gset Z;
  packets_to_retransmit : list (Z * Z);
  total_sent : Z;
  total_dropped : Z;
  total_retransmitted : Z;
  window_sizes : list Z;
  retransmission_counts : gmap Z Z;
  running : bool;
  pc : phase;
}.

(** [__init__], then [self.running = True] at the head of [start] (the
    handshake of [connect] is assumed to succeed). *)
Definition init (window : Z) : state :=
  {| window_size := window; base := 0; next_seq_num := 0;
     sent_packets := ∅; acked_packets := ∅; dropped_packets := ∅;
     packets_to_retransmit := []; total_sent := 0; total_dropped := 0;
     total_retransmitted := 0; window_sizes := [];
     retransmission_counts := ∅; running := false; pc := Admitting |}.

Definition set_running (b : bool) (s : state) : state :=
  {| window_size := window_size s; base := base s;
     next_seq_num := next_seq_num s; sent_packets := sent_packets s;
     acked_packets := acked_packets s; dropped_packets := dropped_packets s;
     packets_to_retransmit := packets_to_retransmit s;
     total_sent := total_sent s; total_dropped := total_dropped s;
     total_retransmitted := total_retransmitted s;
     window_sizes := window_sizes s;
     retransmission_counts := retransmission_counts s;
     running := b; pc := pc s |}.

Definition set_pc (p : phase) (s : state) : state :=
  {| window_size := window_size s; base := base s;
     next_seq_num := next_seq_num s; sent_packets := sent_packets s;
     acked_packets := acked_packets s; dropped_packets := dropped_packets s;
     packets_to_retransmit := packets_to_retransmit s;
     total_sent := total_sent s; total_dropped := total_dropped s;
     total_retransmitted := total_retransmitted s;
     window_sizes := window_sizes s;
     retransmission_counts := retransmission_counts s;
     running := running s; pc := p |}.

Definition set_window_size (w : Z) (s : state) : state :=
  {| window_size := w; base := base s;
     next_seq_num := next_seq_num s; sent_packets := sent_packets s;
     acked_packets := acked_packets s; dropped_packets := dropped_packets s;
     packets_to_retransmit := packets_to_retransmit s;
     total_sent := total_sent s; total_dropped := total_dropped s;
     total_retransmitted := total_retransmitted s;
     window_sizes := window_sizes s;
     retransmission_counts := retransmission_counts s;
     running := running s; pc := pc s |}.

Definition set_base (b : Z) (s : state) : state :=
  {| window_size := window_size s; base := b;
     next_seq_num := next_seq_num s; sent_packets := sent_packets s;
     acked_packets := acked_packets s; dropped_packets := dropped_packets s;
     packets_to_retransmit := packets_to_retransmit s;
     total_sent := total_sent s; total_dropped := total_dropped s;
     total_retransmitted := total_retransmitted s;
     window_sizes := window_sizes s;
     retransmission_counts := retransmission_counts s;
     running := running s; pc := pc s |}.

Definition set_acked_packets (a : gset Z) (s : state) : state :=
  {| window_size := window_size s; base := base s;
     next_seq_num := next_seq_num s; sent_packets := sent_packets s;
     acked_packets := a; dropped_packets := dropped_packets s;
     packets_to_retransmit := packets_to_retransmit s;
     total_sent := total_sent s; total_dropped := total_dropped s;
     total_retransmitted := total_retransmitted s;
     window_sizes := window_sizes s;
     retransmission_counts := retransmission_counts s;
     running := running s; pc := pc s |}.

Definition set_packets_to_retransmit (q : list (Z * Z)) (s : state) : state :=
  {| window_size := window_size s; base := base s;
     next_seq_num := next_seq_num s; sent_packets := sent_packets s;
     acked_packets := acked_packets s; dropped_packets := dropped_packets s;
     packets_to_retransmit := q;
     total_sent := total_sent s; total_dropped := total_dropped s;
     total_retransmitted := total_retransmitted s;
     window_sizes := window_sizes s;
     retransmission_counts := retransmission_counts s;
     running := running s; pc := pc s |}.

(** The [should_drop] branch of [send_packet]:
    [dropped_packets.add], [total_dropped += 1]. *)
Definition record_drop (seq : Z) (s : state) : state :=
  {| window_size := window_size s; base := base s;
     next_seq_num := next_seq_num s; sent_packets := sent_packets s;
     acked_packets := acked_packets s;
     dropped_packets := {[seq]} ∪ dropped_packets s;
     packets_to_retransmit := packets_to_retransmit s;
     total_sent := total_sent s; total_dropped := total_dropped s + 1;
     total_retransmitted := total_retransmitted s;
     window_sizes := window_sizes s;
     retransmission_counts := retransmission_counts s;
     running := running s; pc := pc s |}.

(** The other branch: [sent_packets.add], [total_sent += 1]. *)
Definition record_sent (seq : Z) (s : state) : state :=
  {| window_size := window_size s; base := base s;
     next_seq_num := next_seq_num s;
     sent_packets := {[seq]} ∪ sent_packets s;
     acked_packets := acked_packets s; dropped_packets := dropped_packets s;
     packets_to_retransmit := packets_to_retransmit s;
     total_sent := total_sent s + 1; total_dropped := total_dropped s;
     total_retransmitted := total_retransmitted s;
     window_sizes := window_sizes s;
     retransmission_counts := retransmission_counts s;
     running := running s; pc := pc s |}.

(** [total_retransmitted += 1; retransmission_counts[seq] += 1]. *)
Definition record_retransmitted (seq : Z) (s : state) : state :=
  {| window_size := window_size s; base := base s;
     next_seq_num := next_seq_num s; sent_packets := sent_packets s;
     acked_packets := acked_packets s; dropped_packets := dropped_packets s;
     packets_to_retransmit := packets_to_retransmit s;
     total_sent := total_sent s; total_dropped := total_dropped s;
     total_retransmitted := total_retransmitted s + 1;
     window_sizes := window_sizes s;
     retransmission_counts :=
       <[seq := default 0 (retransmission_counts s !! seq) + 1]>
         (retransmission_counts s);
     running := running s; pc := pc s |}.

(** [next_seq_num += 1; window_sizes.append(window_size)] in [start]. *)
Definition advance_next (s : state) : state :=
  {| window_size := window_size s; base := base s;
     next_seq_num := next_seq_num s + 1; sent_packets := sent_packets s;
     acked_packets := acked_packets s; dropped_packets := dropped_packets s;
     packets_to_retransmit := packets_to_retransmit s;
     total_sent := total_sent s; total_dropped := total_dropped s;
     total_retransmitted := total_retransmitted s;
     window_sizes := window_sizes s ++ [window_size s];
     retransmission_counts := retransmission_counts s;
     running := running s; pc := pc s |}.

Definition message_of (seq : Z) (s : state) : Wire.announcement :=
  {| Wire.seq_num := seq; Wire.window_size := window_size s |}.

(** [random.random() < self.drop_probability] *)
Definition should_drop (cfg : config) (r : Q) : bool :=
  negb (Qle_bool (drop_probability cfg) r).

(** [send_packet(seq_num)]: the new state and what went to the socket. *)
Definition send_packet (cfg : config) (s : state) (seq : Z) (r : Q)
  : state * list Wire.announcement :=
  if should_drop cfg r then
    let s1 := record_drop seq s in
    (set_packets_to_retransmit
       (packets_to_retransmit s1 ++ [(seq, next_seq_num s1 + retransmit_after cfg)])
       s1, [])
  else
    (record_sent seq s, [message_of seq s]).

(** One step of the main thread in [start]: the test of whichever
    [while] it is in, and one pass through its body. *)
Definition start_step (cfg : config) (s : state) (r : Q)
  : state * list Wire.announcement :=
  match pc s with
  | Admitting =>
      if (total_sent s <? total_packets cfg) && running s then
        if (next_seq_num s <? base s + window_size s)
           && (next_seq_num s <? total_packets cfg)
        then
          let '(s1, out) := send_packet cfg s (next_seq_num s) r in
          (advance_next s1, out)
        else (s, [])
      else (set_pc Waiting s, [])
  | Waiting =>
      if (Z.of_nat (size (acked_packets s)) <? total_packets cfg) && running s
      then (s, [])
      else (set_running false (set_pc Finished s), [])
  | Finished => (s, [])
  end.

(** [while self.base in self.acked_packets and self.base < self.next_seq_num:
       self.base += 1] *)
Fixpoint advance_base (fuel : nat) (acked : gset Z) (next b : Z) : Z :=
  match fuel with
  | O => b
  | S fuel' =>
      if bool_decide (b ∈ acked) && (b <? next)
      then advance_base fuel' acked next (b + 1)
      else b
  end.

(** The loop cannot run more than [next - base] times. *)
Definition find_new_base (s : state) : Z :=
  advance_base (Z.to_nat (next_seq_num s - base s))
               (acked_packets s) (next_seq_num s) (base s).

(** The body of [receive_acks] for one decoded message. *)
Definition receive_acks (s : state) (message : gmap string Z) : state :=
  match message !! "ack_num" with
  | None => s
  | Some ack_num =>
      let seq := ack_num - 1 in
      if bool_decide (seq ∈ acked_packets s) then s
      else
        let s1 := set_acked_packets ({[seq]} ∪ acked_packets s) s in
        if seq =? base s1 then
          let s2 := set_base (find_new_base s1) s1 in
          if window_size s2 <? 100
          then set_window_size (window_size s2 + 1) s2
          else s2
        else s1
  end.

(** One pass through the loop of [handle_retransmissions]. *)
Definition handle_retransmissions (cfg : config) (s : state) (r : Q)
  : state * list Wire.announcement :=
  match packets_to_retransmit s with
  | [] => (s, [])
  | (seq, due) :: rest =>
      if due <=? next_seq_num s then
        let s1 := set_packets_to_retransmit rest s in
        if bool_decide (seq ∈ acked_packets s1) then (s1, [])
        else if should_drop cfg r then
          (set_packets_to_retransmit
             (rest ++ [(seq, next_seq_num s1 + retransmit_after cfg)]) s1, [])
        else (record_retransmitted seq s1, [message_of seq s1])
      else (s, [])
  end.

(** What can happen to the sender: a step of one of its three threads,
    or the [running] flag being cleared from outside. *)
Inductive event :=
| Main (r : Q)
| Ack (message : gmap string Z)
| Retransmit (r : Q)
| Stop.

(** The two helper threads test [self.running] at the head of each pass. *)
Definition step (cfg : config) (s : state) (e : event)
  : state * list Wire.announcement :=
  match e with
  | Main r => start_step cfg s r
  | Ack m => if running s then (receive_acks s m, []) else (s, [])
  | Retransmit r => if running s then handle_retransmissions cfg s r else (s, [])
  | Stop => (set_running false s, [])
  end.

Definition run (cfg : config) (s : state) (evs : list event) : state :=
  foldl (λ s e, fst (step cfg s e)) s evs.

Definition started (window : Z) : state := set_running true (init window).

End Client.

(** ** The receiver of [server.py] *)

Module Server.

Record state := State {
  received_packets : gset Z;
  missing_packets : gset Z;
  highest_seq_received : Z;
  total_packets_received : Z;
  total_packets_expected : Z;
  goodput_measurements : list Q;
  window_sizes : list Z;
  seq_nums_received : list Z;
  seq_nums_dropped : list Z;
  retransmission_stats : gmap Z Z;
}.

(** [__init__] *)
Definition init : state :=
  {| received_packets := ∅; missing_packets := ∅;
     highest_seq_received := -1;
     total_packets_received := 0; total_packets_expected := 0;
     goodput_measurements := []; window_sizes := [];
     seq_nums_received := []; seq_nums_dropped := [];
     retransmission_stats := ∅ |}.

(** One pass of
    [for i in range(highest_seq_received + 1, seq_num):
       if i not in received_packets and i not in missing_packets:
         missing_packets.add(i); seq_nums_dropped.append(i)]
    on the pair (missing_packets, seq_nums_dropped). *)
Definition note_missing (received : gset Z) (acc : gset Z * list Z) (i : Z)
  : gset Z * list Z :=
  if negb (bool_decide (i ∈ received)) && negb (bool_decide (i ∈ acc.1))
  then ({[i]} ∪ acc.1, acc.2 ++ [i])
  else acc.

(** [range(lo, hi)] *)
Definition range (lo hi : Z) : list Z := seqZ lo (hi - lo).

Definition process_sequence_number (s : state) (seq_num : Z) : state :=
  let expected := total_packets_expected s + 1 in
  if bool_decide (seq_num ∈ received_packets s) then
    {| received_packets := received_packets s;
       missing_packets := missing_packets s;
       highest_seq_received := highest_seq_received s;
       total_packets_received := total_packets_received s;
       total_packets_expected := expected;
       goodput_measurements := goodput_measurements s;
       window_sizes := window_sizes s;
       seq_nums_received := seq_nums_received s;
       seq_nums_dropped := seq_nums_dropped s;
       retransmission_stats :=
         <[seq_num := default 0 (retransmission_stats s !! seq_num) + 1]>
           (retransmission_stats s) |}
  else
    let received := {[seq_num]} ∪ received_packets s in
    let gaps :=
      if highest_seq_received s <? seq_num then
        foldl (note_missing received)
              (missing_packets s, seq_nums_dropped s)
              (range (highest_seq_received s + 1) seq_num)
      else (missing_packets s, seq_nums_dropped s) in
    {| received_packets := received;
       missing_packets := gaps.1;
       highest_seq_received :=
         if highest_seq_received s <? seq_num then seq_num
         else highest_seq_received s;
       total_packets_received := total_packets_received s + 1;
       total_packets_expected := expected;
       goodput_measurements := goodput_measurements s;
       window_sizes := window_sizes s;
       seq_nums_received := seq_nums_received s ++ [seq_num];
       seq_nums_dropped := gaps.2;
       retransmission_stats := retransmission_stats s |}.

(** [len(self.received_packets) / self.total_packets_expected] *)
Definition goodput (s : state) : option Q :=
  py_truediv (Z.of_nat (size (received_packets s))) (total_packets_expected s).

Definition append_window_size (w : Z) (s : state) : state :=
  {| received_packets := received_packets s;
     missing_packets := missing_packets s;
     highest_seq_received := highest_seq_received s;
     total_packets_received := total_packets_received s;
     total_packets_expected := total_packets_expected s;
     goodput_measurements := goodput_measurements s;
     window_sizes := window_sizes s ++ [w];
     seq_nums_received := seq_nums_received s;
     seq_nums_dropped := seq_nums_dropped s;
     retransmission_stats := retransmission_stats s |}.

Definition append_goodput (g : Q) (s : state) : state :=
  {| received_packets := received_packets s;
     missing_packets := missing_packets s;
     highest_seq_received := highest_seq_received s;
     total_packets_received := total_packets_received s;
     total_packets_expected := total_packets_expected s;
     goodput_measurements := goodput_measurements s ++ [g];
     window_sizes := window_sizes s;
     seq_nums_received := seq_nums_received s;
     seq_nums_dropped := seq_nums_dropped s;
     retransmission_stats := retransmission_stats s |}.

(** The test that guards the periodic measurement in [handle_client]. *)
Definition measurement_due (s : state) : bool :=
  (total_packets_received s mod 1000 =? 0) && (0 <? total_packets_received s).

(** What one pass of the receive loop of [handle_client] did about the
    periodic goodput: nothing, a recorded value, or a division that raised
    (caught by [except Exception], which skips the acknowledgment). *)
Inductive measurement := NotDue | Measured (g : Q) | Raised.

Definition measure (s : state) : measurement :=
  if measurement_due s then
    match goodput s with Some g => Measured g | None => Raised end
  else NotDue.

(** One pass of the receive loop of [handle_client] on a decoded
    announcement: the new state and the acknowledgment sent, if any. *)
Definition handle_client (s : state) (message : Wire.announcement)
  : state * option (gmap string Z) :=
  let s1 := process_sequence_number s (Wire.seq_num message) in
  let s2 := append_window_size (Wire.window_size message) s1 in
  match measure s2 with
  | NotDue => (s2, Some (Wire.ack_of_server (Wire.seq_num message)))
  | Measured g =>
      (append_goodput g s2, Some (Wire.ack_of_server (Wire.seq_num message)))
  | Raised => (s2, None)
  end.

(** What [calculate_final_statistics] reports. *)
Inductive final_report := NoPacketsProcessed | FinalGoodput (g : Q) | FinalRaised.

Definition calculate_final_statistics (s : state) : final_report :=
  if total_packets_expected s =? 0 then NoPacketsProcessed
  else match goodput s with
       | Some g => FinalGoodput g
       | None => FinalRaised
       end.

Definition run (s : state) (ms : list Wire.announcement) : state :=
  foldl (λ s m, fst (handle_client s m)) s ms.

End Server.

(** ** The receiver of [server_fixed.py] *)

Module ServerFixed.

Record state := State {
  received_packets : gset Z;
  missing_packets : gset Z;
  highest_seq_num : Z;
  total_packets_received : Z;
  total_packets_expected : Z;
  window_sizes : list Z;
  seq_nums_received : list Z;
  seq_nums_dropped : list Z;
  goodput_measurements : list Q;
}.

(** [__init__] *)
Definition init : state :=
  {| received_packets := ∅; missing_packets := ∅; highest_seq_num := -1;
     total_packets_received := 0; total_packets_expected := 0;
     window_sizes := []; seq_nums_received := []; seq_nums_dropped := [];
     goodput_measurements := [] |}.

(** One pass of
    [for i in range(highest_seq_num + 1, seq_num):
       if i not in received_packets:
         missing_packets.add(i); seq_nums_dropped.append(i)]. *)
Definition note_missing (received : gset Z) (acc : gset Z * list Z) (i : Z)
  : gset Z * list Z :=
  if negb (bool_decide (i ∈ received))
  then ({[i]} ∪ acc.1, acc.2 ++ [i])
  else acc.

(** [process_sequence_number]; an announcement always carries an integer
    [seq_num], so the [seq_num is None] exit is not taken. *)
Definition process_sequence_number (s : state) (seq_num : Z) : state :=
  let received := {[seq_num]} ∪ received_packets s in
  let newer := highest_seq_num s <? seq_num in
  let gaps :=
    if newer then
      foldl (note_missing received)
            (missing_packets s, seq_nums_dropped s)
            (Server.range (highest_seq_num s + 1) seq_num)
    else (missing_packets s, seq_nums_dropped s) in
  {| received_packets := received;
     missing_packets := gaps.1;
     highest_seq_num := if newer then seq_num else highest_seq_num s;
     total_packets_received := total_packets_received s + 1;
     total_packets_expected :=
       if newer then seq_num + 1 else total_packets_expected s;
     window_sizes := window_sizes s;
     seq_nums_received := seq_nums_received s ++ [seq_num];
     seq_nums_dropped := gaps.2;
     goodput_measurements := goodput_measurements s |}.

(** [len(self.received_packets) / self.total_packets_expected] *)
Definition goodput (s : state) : option Q :=
  py_truediv (Z.of_nat (size (received_packets s))) (total_packets_expected s).

Definition append_window_size (w : Z) (s : state) : state :=
  {| received_packets := received_packets s;
     missing_packets := missing_packets s;
     highest_seq_num := highest_seq_num s;
     total_packets_received := total_packets_received s;
     total_packets_expected := total_packets_expected s;
     window_sizes := window_sizes s ++ [w];
     seq_nums_received := seq_nums_received s;
     seq_nums_dropped := seq_nums_dropped s;
     goodput_measurements := goodput_measurements s |}.

Definition append_goodput (g : Q) (s : state) : state :=
  {| received_packets := received_packets s;
     missing_packets := missing_packets s;
     highest_seq_num := highest_seq_num s;
     total_packets_received := total_packets_received s;
     total_packets_expected := total_packets_expected s;
     window_sizes := window_sizes s;
     seq_nums_received := seq_nums_received s;
     seq_nums_dropped := seq_nums_dropped s;
     goodput_measurements := goodput_measurements s ++ [g] |}.

Definition measurement_due (s : state) : bool :=
  (total_packets_received s mod 1000 =? 0) && (0 <? total_packets_received s).

Definition measure (s : state) : Server.measurement :=
  if measurement_due s then
    match goodput s with
    | Some g => Server.Measured g
    | None => Server.Raised
    end
  else Server.NotDue.

(** One pass of the receive loop of [handle_client]. *)
Definition handle_client (s : state) (message : Wire.announcement)
  : state * option (gmap string Z) :=
  let s1 := process_sequence_number s (Wire.seq_num message) in
  let s2 := append_window_size (Wire.window_size message) s1 in
  match measure s2 with
  | Server.NotDue =>
      (s2, Some (Wire.ack_of_server_fixed (Wire.seq_num message)))
  | Server.Measured g =>
      (append_goodput g s2,
       Some (Wire.ack_of_server_fixed (Wire.seq_num message)))
  | Server.Raised => (s2, None)
  end.

Definition calculate_final_statistics (s : state) : Server.final_report :=
  if total_packets_expected s =? 0 then Server.NoPacketsProcessed
  else match goodput s with
       | Some g => Server.FinalGoodput g
       | None => Server.FinalRaised
       end.

Definition run (s : state) (ms : list Wire.announcement) : state :=
  foldl (λ s m, fst (handle_client s m)) s ms.

End ServerFixed.

(** ** Sender and [server.py] receiver joined by two FIFO streams *)

Module Link.

Record state := State {
  client : Client.state;
  server : Server.state;
  to_server : list Wire.announcement;
  to_client : list (gmap string Z);
}.

Definition init (window : Z) : state :=
  {| client := Client.started window; server := Server.init;
     to_server := []; to_client := [] |}.

(** A step of one sender thread, the receiver reading its next
    announcement, or the sender's acknowledgment thread reading the next
    acknowledgment. *)
Inductive event :=
| Main (r : Q)
| Retransmit (r : Q)
| ServerRecv
| ClientRecv.

Definition client_step (cfg : Client.config) (s : state) (e : Client.event)
  : state :=
  let '(c, out) := Client.step cfg (client s) e in
  {| client := c; server := server s;
     to_server := to_server s ++ out; to_client := to_client s |}.

Definition step (cfg : Client.config) (s : state) (e : event) : state :=
  match e with
  | Main r => client_step cfg s (Client.Main r)
  | Retransmit r => client_step cfg s (Client.Retransmit r)
  | ServerRecv =>
      match to_server s with
      | [] => s
      | m :: rest =>
          let '(sv, ack) := Server.handle_client (server s) m in
          {| client := client s; server := sv; to_server := rest;
             to_client := to_client s ++ option_list ack |}
      end
  | ClientRecv =>
      match to_client s with
      | [] => s
      | a :: rest =>
          {| client := fst (Client.step cfg (client s) (Client.Ack a));
             server := server s; to_server := to_server s;
             to_client := rest |}
      end
  end.

Definition run (cfg : Client.config) (s : state) (evs : list event) : state :=
  foldl (step cfg) s evs.

(** The draws of [random.random()] lie in [0, 1). *)
Definition draw_ok (e : event) : bool :=
  match e with
  | Main r | Retransmit r => Qle_bool 0 r && negb (Qle_bool 1 r)
  | _ => true
  end.

End Link.

(** ** Invariants of the runs *)

(** The sequence numbers [0 .. a-1]. *)
Definition prefix_set (a : Z) : gset Z := list_to_set (seqZ 0 a).

(** A run without loss, [N] packets and initial window [w]: [a] numbers
    are acknowledged, the acknowledgments of [a .. b-1] are on their way to
    the sender, the announcements [b .. n-1] on their way to the receiver. *)
Record lossless (N w : Z) (s : Link.state) (a b n : Z) : Prop := {
  ll_order : 0 ≤ a ∧ a ≤ b ∧ b ≤ n ∧ n ≤ N;
  ll_base : Client.base (Link.client s) = a;
  ll_next : Client.next_seq_num (Link.client s) = n;
  ll_window : Client.window_size (Link.client s) = w + a;
  ll_acked : Client.acked_packets (Link.client s) = prefix_set a;
  ll_sent : Client.total_sent (Link.client s) = n;
  ll_dropped : Client.total_dropped (Link.client s) = 0;
  ll_retransmitted : Client.total_retransmitted (Link.client s) = 0;
  ll_queue : Client.packets_to_retransmit (Link.client s) = [];
  ll_to_client : Link.to_client s = Wire.ack_of_server <$> seqZ a (b - a);
  ll_to_server : Wire.seq_num <$> Link.to_server s = seqZ b (n - b);
  ll_server : 0 ≤ Server.total_packets_expected (Link.server s);
  ll_pc : match Client.pc (Link.client s) with
          | Client.Admitting => Client.running (Link.client s) = true
          | Client.Waiting => Client.running (Link.client s) = true ∧ n = N
          | Client.Finished => a = N
          end;
}.

(** Bookkeeping of the sender's counters while nobody stops it. *)
Record admitting (cfg : Client.config) (s : Client.state) : Prop := {
  adm_sum : Client.total_sent s + Client.total_dropped s = Client.next_seq_num s;
  adm_sent : 0 ≤ Client.total_sent s;
  adm_dropped : 0 ≤ Client.total_dropped s;
  adm_next :
    Client.next_seq_num s ≤ Client.total_packets cfg ∨ Client.next_seq_num s = 0;
  adm_running : Client.pc s = Client.Admitting → Client.running s = true;
  adm_left : Client.pc s ≠ Client.Admitting → Client.total_dropped s = 0;
}.

(** A sender that has admitted everything while [total_sent] is short of
    [total_packets]. *)
Definition spinning (cfg : Client.config) (s : Client.state) : Prop :=
  Client.pc s = Client.Admitting ∧ Client.running s = true ∧
  Client.total_sent s < Client.total_packets cfg ∧
  Client.total_packets cfg ≤ Client.next_seq_num s.

(** Counters of the [server.py] receiver. *)
Record counted (s : Server.state) : Prop := {
  cnt_received :
    Server.total_packets_received s = Z.of_nat (size (Server.received_packets s));
  cnt_expected : Server.total_packets_received s ≤ Server.total_packets_expected s;
  cnt_started :
    0 < Server.total_packets_expected s → 0 < Server.total_packets_received s;
  cnt_measured : Forall unit_goodput (Server.goodput_measurements s);
}.

(** Counters of the [server_fixed.py] receiver. *)
Record fixed_counted (s : ServerFixed.state) : Prop := {
  fx_range : ∀ x, x ∈ ServerFixed.received_packets s →
                  0 ≤ x ≤ ServerFixed.highest_seq_num s;
  fx_expected :
    ServerFixed.total_packets_expected s = ServerFixed.highest_seq_num s + 1;
  fx_started :
    (ServerFixed.highest_seq_num s = -1 ∧ ServerFixed.total_packets_received s = 0)
    ∨ (ServerFixed.highest_seq_num s ∈ ServerFixed.received_packets s
       ∧ 0 < ServerFixed.total_packets_received s);
  fx_measured : Forall unit_goodput (ServerFixed.goodput_measurements s);
}.

(** The state on which [handle_client] of [server.py] evaluates the test
    of the periodic measurement. *)
Definition at_measurement (s : Server.state) (m : Wire.announcement)
  : Server.state :=
  Server.append_window_size (Wire.window_size m)
    (Server.process_sequence_number s (Wire.seq_num m)).

(** Sequence numbers are unsigned. *)
Definition numbered (m : Wire.announcement) : bool := 0 <=? Wire.seq_num m.

(** ** Scenarios *)

Definition announce (seq : Z) : Wire.announcement :=
  {| Wire.seq_num := seq; Wire.window_size := 4 |}.

(** Announcements 0, 1, 3, and then the late 2. *)
Definition gap_prefix : list Wire.announcement := announce <$> [0; 1; 3].
Definition gap_filled : list Wire.announcement := announce <$> [0; 1; 3; 2].

(** A thousand distinct announcements. *)
Definition thousand : list Wire.announcement := announce <$> seqZ 0 1000.

(** Drop probability 0 and ten packets. *)
Definition lossless_cfg (retransmit_after : Z) : Client.config :=
  {| Client.drop_probability := 0;
     Client.retransmit_after := retransmit_after;
     Client.total_packets := 10 |}.

(** Send one packet, let the receiver read it, read its acknowledgment. *)
Definition round_trip : list Link.event :=
  [Link.Main (1 # 2); Link.ServerRecv; Link.ClientRecv].

(** Ten round trips, then the main thread leaves both of its loops. *)
Definition lockstep_schedule : list Link.event :=
  concat (replicate 10 round_trip) ++ [Link.Main (1 # 2); Link.Main (1 # 2)].

(** Two packets, drop probability one half. *)
Definition drop_cfg : Client.config :=
  {| Client.drop_probability := 1 # 2; Client.retransmit_after := 1;
     Client.total_packets := 2 |}.

(** Packet 0 is dropped at its first transmission (draw 1/4), packet 1 is
    sent, packet 0 is retransmitted, and both are acknowledged. *)
Definition drop_run : list Client.event :=
  [Client.Main (1 # 4); Client.Main (3 # 4); Client.Retransmit (3 # 4);
   Client.Ack (Wire.ack_of_server 1); Client.Ack (Wire.ack_of_server 0)].

(** Three admissions and an acknowledgment of the base, window 4. *)
Definition short_run : list Client.event :=
  [Client.Main (1 # 2); Client.Main (1 # 2); Client.Main (1 # 2);
   Client.Ack (Wire.ack_of_server 0)].

(** ** Further bookkeeping of the runs *)

(** Everything the sender wrote to the socket during a run, in order. *)
Fixpoint client_trace (cfg : Client.config) (s : Client.state)
    (evs : list Client.event) : list Wire.announcement :=
  match evs with
  | [] => []
  | e :: evs' =>
      (Client.step cfg s e).2 ++ client_trace cfg (Client.step cfg s e).1 evs'
  end.

(** Flow control of the sender; [w] is the initial window size. *)
Record flow (cfg : Client.config) (w : Z) (s : Client.state) : Prop := {
  fl_base : 0 ≤ Client.base s ∧ Client.base s ≤ Client.next_seq_num s;
  fl_total : Client.next_seq_num s ≤ Z.max 0 (Client.total_packets cfg);
  fl_window : Client.next_seq_num s ≤ Client.base s + Z.max 0 (Client.window_size s);
  fl_grown : w ≤ Client.window_size s;
  fl_samples : Z.of_nat (length (Client.window_sizes s)) = Client.next_seq_num s;
  fl_range : Forall (λ x, w ≤ x ≤ Client.window_size s) (Client.window_sizes s);
  fl_sorted : StronglySorted Z.le (Client.window_sizes s);
}.

(** First transmissions: every admitted number was either sent or dropped. *)
Record first_sent (s : Client.state) : Prop := {
  fs_next : 0 ≤ Client.next_seq_num s;
  fs_cover : Client.sent_packets s ∪ Client.dropped_packets s
             = prefix_set (Client.next_seq_num s);
  fs_disjoint : Client.sent_packets s ## Client.dropped_packets s;
  fs_sent : Client.total_sent s = Z.of_nat (size (Client.sent_packets s));
  fs_dropped : Client.total_dropped s = Z.of_nat (size (Client.dropped_packets s));
}.

(** The retransmission queue and the retransmission statistics. *)
Record queued (cfg : Client.config) (s : Client.state) : Prop := {
  qu_next : 0 ≤ Client.next_seq_num s;
  qu_entries :
    Forall (λ e, e.1 ∈ Client.dropped_packets s ∧ 0 ≤ e.1 < Client.next_seq_num s ∧
                 e.2 ≤ Client.next_seq_num s + Client.retransmit_after cfg)
           (Client.packets_to_retransmit s);
  qu_nodup : NoDup (Client.packets_to_retransmit s).*1;
  qu_sorted : StronglySorted Z.le (Client.packets_to_retransmit s).*2;
  qu_counts : ∀ k v, Client.retransmission_counts s !! k = Some v →
                     v = 1 ∧ k ∈ Client.dropped_packets s ∧
                     0 ≤ k < Client.next_seq_num s ∧
                     k ∉ (Client.packets_to_retransmit s).*1;
  qu_total : Client.total_retransmitted s
             = Z.of_nat (size (Client.retransmission_counts s));
}.

(** The numbers that reached the socket: sent at once, or retransmitted. *)
Definition announced (s : Client.state) : gset Z :=
  Client.sent_packets s ∪ dom (Client.retransmission_counts s).

(** [sum(1 for seq_num, retrans_count in counts.items() if retrans_count == count)] *)
Definition packets_with_count (counts : gmap Z Z) (count : Z) : Z :=
  Z.of_nat (length (filter (λ kv : Z * Z, kv.2 = count) (map_to_list counts))).

(** The table of [calculate_final_statistics]: [for count in range(1, 5)]. *)
Definition retransmission_table (counts : gmap Z Z) : list (Z * Z) :=
  (λ count, (count, packets_with_count counts count)) <$> Server.range 1 5.

(** [sum(self.retransmission_stats.values())] *)
Definition sum_values (m : gmap Z Z) : Z := map_fold (λ _ v acc, v + acc) 0 m.

(** Both lists of a pair accumulated by [note_missing]: the list records
    the set, once each. *)
Definition listed (acc : gset Z * list Z) : Prop :=
  NoDup acc.2 ∧ list_to_set acc.2 = acc.1.

(** What the receiver of [server.py] knows about gaps. *)
Record gap_tracked (s : Server.state) : Prop := {
  gt_low : -1 ≤ Server.highest_seq_received s;
  gt_top : ∀ x, x ∈ Server.received_packets s → x ≤ Server.highest_seq_received s;
  gt_seen : Server.highest_seq_received s = -1
            ∨ Server.highest_seq_received s ∈ Server.received_packets s;
  gt_cover : ∀ i, 0 ≤ i ≤ Server.highest_seq_received s →
                  i ∈ Server.received_packets s ∨ i ∈ Server.missing_packets s;
  gt_missing : ∀ i, i ∈ Server.missing_packets s →
                    0 ≤ i < Server.highest_seq_received s;
  gt_dropped : listed (Server.missing_packets s, Server.seq_nums_dropped s);
  gt_received : listed (Server.received_packets s, Server.seq_nums_received s);
}.

(** The two receiver variants on the same announcements. *)
Record agree (s : Server.state) (f : ServerFixed.state) : Prop := {
  ag_received : ServerFixed.received_packets f = Server.received_packets s;
  ag_missing : ServerFixed.missing_packets f = Server.missing_packets s;
  ag_highest : ServerFixed.highest_seq_num f = Server.highest_seq_received s;
  ag_dropped : ServerFixed.seq_nums_dropped f = Server.seq_nums_dropped s;
  ag_windows : ServerFixed.window_sizes f = Server.window_sizes s;
  ag_count : ServerFixed.total_packets_received f = Server.total_packets_expected s;
}.

(** Sender and [server.py] receiver joined by the two streams, with any loss. *)
Record linked (cfg : Client.config) (s : Link.state) : Prop := {
  lk_first : first_sent (Link.client s);
  lk_queued : queued cfg (Link.client s);
  lk_base : 0 ≤ Client.base (Link.client s) ∧
            Client.base (Link.client s) ≤ Client.next_seq_num (Link.client s);
  lk_below : ∀ x, 0 ≤ x < Client.base (Link.client s) →
                  x ∈ Client.acked_packets (Link.client s);
  lk_least : Client.base (Link.client s) ∉ Client.acked_packets (Link.client s);
  lk_acked : Client.acked_packets (Link.client s)
             ⊆ Server.received_packets (Link.server s);
  lk_to_client :
    Forall (λ a, ∃ q, a = Wire.ack_of_server q ∧
                      q ∈ Server.received_packets (Link.server s))
           (Link.to_client s);
  lk_wire : NoDup (Wire.seq_num <$> Link.to_server s);
  lk_fresh : ∀ q, q ∈ Wire.seq_num <$> Link.to_server s →
                  q ∉ Server.received_packets (Link.server s);
  lk_announced :
    list_to_set (Wire.seq_num <$> Link.to_server s)
    ∪ Server.received_packets (Link.server s)
    = announced (Link.client s);
  lk_counted : counted (Link.server s);
  lk_unique :
    Server.total_packets_received (Link.server s)
    = Server.total_packets_expected (Link.server s) ∧
    Server.retransmission_stats (Link.server s) = ∅;
  lk_goodputs :
    Forall (λ g, (g == 1)%Q) (Server.goodput_measurements (Link.server s));
}.

(** * Properties *)

(** ** Sets and ranges *)

Lemma computed_member (x : Z) (X : gset Z) : bool_decide (x ∈ X) = true → x ∈ X.
Proof. apply bool_decide_eq_true_1. Qed.

Lemma computed_non_member (x : Z) (X : gset Z) :
  bool_decide (x ∈ X) = false → x ∉ X.
Proof. apply bool_decide_eq_false_1. Qed.

Lemma elem_of_add (x : Z) (X : gset Z) : x ∈ {[x]} ∪ X.
Proof. apply elem_of_union. left. by apply elem_of_singleton. Qed.

Lemma size_add_fresh (x : Z) (X : gset Z) :
  x ∉ X → Z.of_nat (size ({[x]} ∪ X)) = Z.of_nat (size X) + 1.
Proof.
  intros Hx. rewrite size_union.
  - rewrite size_singleton. lia.
  - intros y Hy%elem_of_singleton Hy'. by subst y.
Qed.

Lemma size_pos_elem (x : Z) (X : gset Z) : x ∈ X → 0 < Z.of_nat (size X).
Proof.
  intros Hx. destruct (size X) eqn:E; [|lia].
  apply size_empty_inv in E. rewrite (leibniz_equiv _ _ E) in Hx.
  by apply not_elem_of_empty in Hx.
Qed.

Lemma size_within (X : gset Z) (h : Z) :
  (∀ x, x ∈ X → 0 ≤ x ≤ h) → Z.of_nat (size X) ≤ Z.max 0 (h + 1).
Proof.
  intros HX.
  assert (Hsub : X ⊆ list_to_set (seqZ 0 (h + 1))).
  { intros x Hx. apply elem_of_list_to_set, elem_of_seqZ.
    specialize (HX x Hx). lia. }
  apply subseteq_size in Hsub.
  rewrite size_list_to_set in Hsub by apply NoDup_seqZ.
  rewrite length_seqZ in Hsub. lia.
Qed.

Lemma elem_of_prefix_set a x : x ∈ prefix_set a ↔ 0 ≤ x < a.
Proof. unfold prefix_set. rewrite elem_of_list_to_set, elem_of_seqZ. lia. Qed.

Lemma prefix_set_succ a : 0 ≤ a → {[a]} ∪ prefix_set a = prefix_set (a + 1).
Proof.
  intros Ha. apply set_eq. intros x.
  rewrite elem_of_union, elem_of_singleton, !elem_of_prefix_set. lia.
Qed.

Lemma size_prefix_set a : 0 ≤ a → Z.of_nat (size (prefix_set a)) = a.
Proof.
  intros Ha. unfold prefix_set.
  rewrite size_list_to_set by apply NoDup_seqZ.
  rewrite length_seqZ. lia.
Qed.

Lemma seqZ_snoc m n : 0 ≤ n → seqZ m (n + 1) = seqZ m n ++ [m + n].
Proof. intros Hn. by rewrite seqZ_app by lia. Qed.

Lemma seqZ_head m n x l :
  seqZ m n = x :: l → x = m ∧ 0 < n ∧ l = seqZ (m + 1) (n - 1).
Proof.
  intros H. destruct (decide (0 < n)) as [Hn|Hn].
  - rewrite seqZ_cons in H by done. injection H as <- <-.
    replace (Z.succ m) with (m + 1) by lia.
    by replace (Z.pred n) with (n - 1) by lia.
  - by rewrite seqZ_nil in H by lia.
Qed.

(** ** Goodput arithmetic *)

Lemma py_truediv_nonzero a b : b ≠ 0 → py_truediv a b = Some (ratio a b).
Proof. intros H. unfold py_truediv. by destruct (Z.eqb_spec b 0). Qed.

Lemma ratio_unit a b : 0 < a → a ≤ b → unit_goodput (ratio a b).
Proof.
  intros Ha Hb.
  unfold unit_goodput, ratio, Qdiv, Qmult, Qinv, Qlt, Qle, inject_Z.
  destruct b as [|p|p]; simpl; lia.
Qed.

(** ** The sender *)

Section ClientFacts.

Import Client.

Variable cfg : config.

Lemma run_snoc s evs e : run cfg s (evs ++ [e]) = (step cfg (run cfg s evs) e).1.
Proof. unfold run. by rewrite foldl_snoc. Qed.

Lemma run_app s evs evs' : run cfg s (evs ++ evs') = run cfg (run cfg s evs) evs'.
Proof. unfold run. by rewrite foldl_app. Qed.

(** The loop that looks for the new base moves it forward, and not past
    [next_seq_num]. *)
Lemma advance_base_bounds fuel acked next b :
  b ≤ advance_base fuel acked next b ∧
  advance_base fuel acked next b ≤ Z.max b next.
Proof.
  revert b. induction fuel as [|fuel IH]; intros b; simpl; [lia|].
  destruct (bool_decide (b ∈ acked) && (b <? next)) eqn:E; [|lia].
  apply andb_true_iff in E as [_ E%Z.ltb_lt].
  specialize (IH (b + 1)). lia.
Qed.

(** With at least [next - b] units of fuel the loop has really stopped:
    its test is false at the value returned. *)
Lemma advance_base_exit fuel acked next b :
  next - b ≤ Z.of_nat fuel →
  bool_decide (advance_base fuel acked next b ∈ acked)
  && (advance_base fuel acked next b <? next) = false.
Proof.
  revert b. induction fuel as [|fuel IH]; intros b Hf; simpl.
  - apply andb_false_iff. right. apply Z.ltb_ge. lia.
  - destruct (bool_decide (b ∈ acked) && (b <? next)) eqn:E; [|exact E].
    apply IH. lia.
Qed.

Lemma find_new_base_exit s :
  bool_decide (find_new_base s ∈ acked_packets s)
  && (find_new_base s <? next_seq_num s) = false.
Proof. apply advance_base_exit. lia. Qed.

Lemma find_new_base_bounds s :
  base s ≤ next_seq_num s →
  base s ≤ find_new_base s ∧ find_new_base s ≤ next_seq_num s.
Proof.
  intros H. unfold find_new_base.
  pose proof (advance_base_bounds (Z.to_nat (next_seq_num s - base s))
                (acked_packets s) (next_seq_num s) (base s)). lia.
Qed.

Lemma advance_base_prefix fuel a n :
  0 ≤ a → a < n → (0 < fuel)%nat →
  advance_base fuel (prefix_set (a + 1)) n a = a + 1.
Proof.
  intros Ha Hn Hf. destruct fuel as [|fuel]; [lia|]. simpl.
  rewrite bool_decide_eq_true_2 by (apply elem_of_prefix_set; lia).
  rewrite (proj2 (Z.ltb_lt a n) Hn). simpl.
  destruct fuel as [|fuel]; [done|]. simpl.
  rewrite bool_decide_eq_false_2; [done|].
  rewrite elem_of_prefix_set. lia.
Qed.

(** What [receive_acks] leaves alone. *)
Lemma receive_acks_frame s m :
  let s' := receive_acks s m in
  total_sent s' = total_sent s ∧ total_dropped s' = total_dropped s ∧
  next_seq_num s' = next_seq_num s ∧ pc s' = pc s ∧ running s' = running s.
Proof. unfold receive_acks. repeat case_match; done. Qed.

Lemma handle_retransmissions_frame s r :
  let s' := (handle_retransmissions cfg s r).1 in
  total_sent s' = total_sent s ∧ total_dropped s' = total_dropped s ∧
  next_seq_num s' = next_seq_num s ∧ pc s' = pc s ∧ running s' = running s.
Proof. unfold handle_retransmissions. repeat case_match; done. Qed.

Lemma receive_acks_base s m :
  base s ≤ next_seq_num s →
  base s ≤ base (receive_acks s m) ∧
  base (receive_acks s m) ≤ next_seq_num (receive_acks s m).
Proof.
  intros H. unfold receive_acks.
  destruct (m !! "ack_num") as [a|]; [|lia].
  case_bool_decide; [lia|]. simpl.
  destruct (a - 1 =? base s); simpl; [|lia].
  set (s1 := set_acked_packets _ s).
  pose proof (find_new_base_bounds s1 H) as Hb. simpl in Hb.
  destruct (window_size s <? 100); simpl; lia.
Qed.

Lemma receive_acks_window s m :
  window_size s ≤ window_size (receive_acks s m) ∧
  (window_size s ≤ 100 → window_size (receive_acks s m) ≤ 100).
Proof. unfold receive_acks. repeat case_match; simpl in *; lia. Qed.

Lemma step_base s e :
  base s ≤ next_seq_num s →
  base s ≤ base (step cfg s e).1 ∧
  base (step cfg s e).1 ≤ next_seq_num (step cfg s e).1.
Proof.
  intros H. destruct e as [r|m|r|]; simpl.
  - unfold start_step, send_packet. repeat case_match; simplify_eq; simpl; lia.
  - destruct (running s); simpl; [|lia]. by apply receive_acks_base.
  - unfold handle_retransmissions. repeat case_match; simpl; lia.
  - lia.
Qed.

Lemma step_window s e :
  window_size s ≤ window_size (step cfg s e).1 ∧
  (window_size s ≤ 100 → window_size (step cfg s e).1 ≤ 100).
Proof.
  destruct e as [r|m|r|]; simpl.
  - unfold start_step, send_packet. repeat case_match; simplify_eq; simpl; lia.
  - destruct (running s); simpl; [|lia]. apply receive_acks_window.
  - unfold handle_retransmissions. repeat case_match; simpl; lia.
  - lia.
Qed.

Lemma run_base w evs :
  base (run cfg (started w) evs) ≤ next_seq_num (run cfg (started w) evs).
Proof.
  induction evs as [|e evs IH] using rev_ind; [simpl; lia|].
  rewrite run_snoc. by apply step_base.
Qed.

Lemma run_window w evs :
  w ≤ 100 → w ≤ window_size (run cfg (started w) evs) ≤ 100.
Proof.
  intros Hw. induction evs as [|e evs IH] using rev_ind; [simpl; lia|].
  rewrite run_snoc.
  pose proof (step_window (run cfg (started w) evs) e). lia.
Qed.

Lemma receive_acks_acked s m ack_num :
  m !! "ack_num" = Some ack_num →
  (ack_num - 1) ∈ acked_packets (receive_acks s m).
Proof.
  intros Hm. unfold receive_acks. rewrite Hm.
  case_bool_decide; [done|].
  repeat case_match; simpl; apply elem_of_add.
Qed.

Lemma receive_acks_twice s m : receive_acks (receive_acks s m) m = receive_acks s m.
Proof.
  destruct (m !! "ack_num") as [a|] eqn:Hm.
  - pose proof (receive_acks_acked s m a Hm) as Hin.
    unfold receive_acks at 1. rewrite Hm.
    by rewrite bool_decide_eq_true_2.
  - unfold receive_acks. by rewrite Hm.
Qed.

(** The acknowledgment of [server.py] for [seq] marks exactly [seq]. *)
Lemma receive_acks_adds c seq :
  acked_packets (receive_acks c (Wire.ack_of_server seq))
  = {[seq]} ∪ acked_packets c.
Proof.
  unfold receive_acks, Wire.ack_of_server. rewrite lookup_singleton_eq.
  replace (seq + 1 - 1) with seq by lia.
  case_bool_decide as Hin.
  - apply set_eq. intros x. rewrite elem_of_union, elem_of_singleton.
    split; [tauto|]. by intros [->|?].
  - repeat case_match; reflexivity.
Qed.

(** The acknowledgment of [server_fixed.py] has no ['ack_num'] field. *)
Lemma receive_acks_ignores_fixed c seq :
  receive_acks c (Wire.ack_of_server_fixed seq) = c.
Proof.
  unfold receive_acks, Wire.ack_of_server_fixed.
  by rewrite lookup_singleton_ne.
Qed.

Lemma should_drop_never r :
  drop_probability cfg = 0%Q → Qle_bool 0 r = true → should_drop cfg r = false.
Proof. intros Hp Hr. unfold should_drop. by rewrite Hp, Hr. Qed.

Lemma admitting_step s e :
  e ≠ Stop → admitting cfg s → admitting cfg (step cfg s e).1.
Proof.
  intros He [Hsum Hs Hd Hn Hrun Hleft].
  destruct e as [r|m|r|]; simpl; [| | |done].
  - unfold start_step, send_packet.
    destruct (pc s) eqn:Epc.
    + rewrite Hrun, andb_true_r by done.
      destruct (Z.ltb_spec (total_sent s) (total_packets cfg)).
      * destruct (Z.ltb_spec (next_seq_num s) (total_packets cfg));
          rewrite ?andb_false_r, ?andb_true_r.
        -- destruct (_ <? _).
           ++ destruct (should_drop cfg r);
                split; simpl; rewrite ?Epc; auto; try done; lia.
           ++ split; simpl; rewrite ?Epc; auto.
        -- split; simpl; rewrite ?Epc; auto.
      * split; simpl; auto; try done. intros Hne. lia.
    + destruct (_ && _); split; simpl; rewrite ?Epc; auto; try done.
    + split; simpl; rewrite ?Epc; auto; done.
  - destruct (running s) eqn:Er; simpl; [|by split; rewrite ?Er].
    destruct (receive_acks_frame s m) as (E1 & E2 & E3 & E4 & E5).
    split; rewrite ?E1, ?E2, ?E3, ?E4, ?E5, ?Er; done.
  - destruct (running s) eqn:Er; simpl; [|by split; rewrite ?Er].
    destruct (handle_retransmissions_frame s r) as (E1 & E2 & E3 & E4 & E5).
    split; rewrite ?E1, ?E2, ?E3, ?E4, ?E5, ?Er; done.
Qed.

Lemma admitting_run w evs :
  Stop ∉ evs → admitting cfg (run cfg (started w) evs).
Proof.
  induction evs as [|e evs IH] using rev_ind; intros Hns.
  - split; simpl; try done; auto.
  - rewrite run_snoc. apply admitting_step.
    + intros ->. apply Hns, elem_of_app. right. by apply list_elem_of_singleton.
    + apply IH. intros Hin. apply Hns, elem_of_app. by left.
Qed.

(** Once a first transmission has been dropped, [total_sent] stays below
    [total_packets]: the main thread is in its admission loop for as long
    as nobody stops the sender. *)
Lemma dropped_keeps_admitting w evs :
  Stop ∉ evs →
  let s := run cfg (started w) evs in
  0 < total_dropped s → pc s = Admitting ∧ running s = true.
Proof.
  intros Hns s Hd.
  destruct (admitting_run w evs Hns) as [_ _ _ _ Hrun Hleft].
  fold s in Hrun, Hleft.
  destruct (decide (pc s = Admitting)) as [E|E]; [auto|].
  apply Hleft in E. lia.
Qed.

(** What the termination of [start] looks like when [total_sent] does
    reach [total_packets]: the next step of the main thread leaves the
    admission loop, and the waiting loop is left as soon as enough numbers
    are acknowledged or the sender is stopped. *)
Lemma all_sent_enters_waiting s r :
  pc s = Admitting → total_packets cfg ≤ total_sent s →
  pc (start_step cfg s r).1 = Waiting.
Proof.
  intros Hpc Hsent. unfold start_step.
  by rewrite Hpc, (proj2 (Z.ltb_ge _ _) Hsent).
Qed.

Lemma all_acked_finishes s r :
  pc s = Waiting → total_packets cfg ≤ Z.of_nat (size (acked_packets s)) →
  pc (start_step cfg s r).1 = Finished ∧ running (start_step cfg s r).1 = false.
Proof.
  intros Hpc Hacked. unfold start_step.
  by rewrite Hpc, (proj2 (Z.ltb_ge _ _) Hacked).
Qed.

Lemma stopped_sender_finishes s r r' :
  pc (run cfg s [Stop; Main r; Main r']) = Finished.
Proof.
  unfold run. simpl. unfold start_step at 2. simpl.
  destruct (pc s) eqn:Epc; simpl.
  - rewrite andb_false_r. simpl. unfold start_step. simpl.
    by rewrite andb_false_r.
  - rewrite andb_false_r. simpl. by unfold start_step.
  - unfold start_step. simpl. by rewrite Epc.
Qed.

Lemma spinning_main s r : spinning cfg s → start_step cfg s r = (s, []).
Proof.
  intros (Hpc & Hrun & Hsent & Hnext). unfold start_step.
  rewrite Hpc, Hrun, (proj2 (Z.ltb_lt _ _) Hsent). simpl.
  by rewrite (proj2 (Z.ltb_ge _ _) Hnext), andb_false_r.
Qed.

Lemma spinning_mains s rs : spinning cfg s → run cfg s (Main <$> rs) = s.
Proof.
  intros Hs. induction rs as [|r rs IH] using rev_ind; [done|].
  rewrite fmap_app. change (Main <$> [r]) with [Main r].
  rewrite run_snoc, IH. simpl. by rewrite spinning_main.
Qed.

End ClientFacts.

(** ** The receiver of [server.py] *)

Lemma server_run_snoc s ms m :
  Server.run s (ms ++ [m]) = (Server.handle_client (Server.run s ms) m).1.
Proof. unfold Server.run. by rewrite foldl_snoc. Qed.

Lemma counted_init : counted Server.init.
Proof. split; simpl; try done; lia. Qed.

Lemma counted_process s q :
  counted s → counted (Server.process_sequence_number s q).
Proof.
  intros [Hr He Hs Hm]. unfold Server.process_sequence_number.
  case_bool_decide as Hin; split; simpl; try done; try lia.
  - intros _. rewrite Hr. by eapply size_pos_elem.
  - rewrite size_add_fresh by done. lia.
Qed.

Lemma counted_at_measurement s m : counted s → counted (at_measurement s m).
Proof.
  intros Hs. apply (counted_process s (Wire.seq_num m)) in Hs.
  destruct Hs. by split.
Qed.

Lemma at_measurement_expected s m :
  Server.total_packets_expected (at_measurement s m)
  = Server.total_packets_expected s + 1.
Proof.
  unfold at_measurement, Server.process_sequence_number. simpl.
  by case_bool_decide.
Qed.

Lemma at_measurement_goodputs s m :
  Server.goodput_measurements (at_measurement s m) = Server.goodput_measurements s.
Proof.
  unfold at_measurement, Server.process_sequence_number. simpl.
  by case_bool_decide.
Qed.

(** On a state with the counters in order the periodic measurement never
    divides by zero. *)
Lemma measure_counted s :
  counted s → 0 < Server.total_packets_expected s →
  Server.measure s
  = if Server.measurement_due s
    then Server.Measured
           (ratio (Server.total_packets_received s) (Server.total_packets_expected s))
    else Server.NotDue.
Proof.
  intros [Hr _ _ _] Hpos. unfold Server.measure, Server.goodput.
  destruct (Server.measurement_due s); [|done].
  rewrite py_truediv_nonzero by lia. by rewrite Hr.
Qed.

Lemma measure_not_raised s :
  0 < Server.total_packets_expected s → Server.measure s ≠ Server.Raised.
Proof.
  intros H. unfold Server.measure, Server.goodput.
  destruct (Server.measurement_due s); [|done].
  by rewrite py_truediv_nonzero by lia.
Qed.

Lemma handle_client_ack s m :
  0 ≤ Server.total_packets_expected s →
  (Server.handle_client s m).2 = Some (Wire.ack_of_server (Wire.seq_num m)) ∧
  Server.total_packets_expected (Server.handle_client s m).1
  = Server.total_packets_expected s + 1.
Proof.
  intros H. unfold Server.handle_client. fold (at_measurement s m).
  pose proof (at_measurement_expected s m) as He.
  pose proof (measure_not_raised (at_measurement s m)) as Hm.
  destruct (Server.measure (at_measurement s m)); simpl; [done|done|].
  exfalso. apply Hm; [lia|done].
Qed.

Lemma counted_handle_client s m :
  counted s → counted (Server.handle_client s m).1.
Proof.
  intros Hs. pose proof (counted_at_measurement s m Hs) as H1.
  pose proof (at_measurement_expected s m) as He.
  assert (Hpos : 0 < Server.total_packets_expected (at_measurement s m)).
  { destruct Hs as [Hr Hle _ _]. lia. }
  unfold Server.handle_client. fold (at_measurement s m).
  rewrite (measure_counted _ H1 Hpos).
  destruct (Server.measurement_due (at_measurement s m)) eqn:Edue; [|done].
  apply andb_true_iff in Edue as [_ Hrec%Z.ltb_lt].
  destruct H1 as [Hr Hle Hst Hm]. split; simpl; try done.
  apply Forall_app. split; [done|]. apply Forall_singleton.
  by apply ratio_unit.
Qed.

Lemma counted_run ms : counted (Server.run Server.init ms).
Proof.
  induction ms as [|m ms IH] using rev_ind; [apply counted_init|].
  rewrite server_run_snoc. by apply counted_handle_client.
Qed.

Lemma process_received s q :
  q ∈ Server.received_packets (Server.process_sequence_number s q).
Proof.
  unfold Server.process_sequence_number. case_bool_decide; simpl; [done|].
  apply elem_of_add.
Qed.

Lemma handle_client_received s m :
  Wire.seq_num m ∈ Server.received_packets (Server.handle_client s m).1.
Proof.
  unfold Server.handle_client.
  pose proof (process_received s (Wire.seq_num m)).
  by destruct (Server.measure _).
Qed.

(** The gap set only grows. *)
Lemma note_missing_mono received l acc :
  acc.1 ⊆ (foldl (Server.note_missing received) acc l).1.
Proof.
  revert acc. induction l as [|i l IH]; intros acc; simpl; [done|].
  etrans; [|apply IH]. unfold Server.note_missing.
  destruct (_ && _); simpl; [apply union_subseteq_r|done].
Qed.

Lemma missing_mono_step s m :
  Server.missing_packets s ⊆ Server.missing_packets (Server.handle_client s m).1.
Proof.
  unfold Server.handle_client.
  assert (Server.missing_packets s ⊆
          Server.missing_packets
            (Server.process_sequence_number s (Wire.seq_num m))).
  { unfold Server.process_sequence_number. case_bool_decide; simpl; [done|].
    destruct (_ <? _); simpl; [|done].
    apply (note_missing_mono _ _
             (Server.missing_packets s, Server.seq_nums_dropped s)). }
  by destruct (Server.measure _).
Qed.

Lemma missing_mono_run s ms :
  Server.missing_packets s ⊆ Server.missing_packets (Server.run s ms).
Proof.
  induction ms as [|m ms IH] using rev_ind; [done|].
  rewrite server_run_snoc. etrans; [exact IH|apply missing_mono_step].
Qed.

(** ** The receiver of [server_fixed.py] *)

Lemma fixed_run_snoc s ms m :
  ServerFixed.run s (ms ++ [m])
  = (ServerFixed.handle_client (ServerFixed.run s ms) m).1.
Proof. unfold ServerFixed.run. by rewrite foldl_snoc. Qed.

Lemma fixed_counted_init : fixed_counted ServerFixed.init.
Proof.
  split; simpl; try done. by left.
Qed.

Lemma fixed_counted_highest s :
  fixed_counted s → -1 ≤ ServerFixed.highest_seq_num s.
Proof.
  intros [Hr _ Hs _]. destruct Hs as [[-> _]|[Hin _]]; [lia|].
  specialize (Hr _ Hin). lia.
Qed.

Lemma fixed_counted_size s :
  fixed_counted s →
  Z.of_nat (size (ServerFixed.received_packets s))
  ≤ ServerFixed.total_packets_expected s.
Proof.
  intros Hs. pose proof (fixed_counted_highest s Hs).
  destruct Hs as [Hr He _ _]. pose proof (size_within _ _ Hr). lia.
Qed.

Lemma fixed_counted_nonempty s :
  fixed_counted s →
  0 < ServerFixed.total_packets_received s ∨ ServerFixed.total_packets_expected s ≠ 0 →
  0 < Z.of_nat (size (ServerFixed.received_packets s)).
Proof.
  intros [_ He Hs _] Hpos.
  destruct Hs as [[Hh Hn]|[Hin _]]; [lia|by eapply size_pos_elem].
Qed.

Lemma fixed_counted_process s q :
  0 ≤ q → fixed_counted s →
  fixed_counted (ServerFixed.process_sequence_number s q).
Proof.
  intros Hq Hs. pose proof (fixed_counted_highest s Hs) as Hh.
  destruct Hs as [Hr He Hs Hm].
  assert (Hn : 0 ≤ ServerFixed.total_packets_received s).
  { destruct Hs as [[_ ->]|[_ ?]]; lia. }
  unfold ServerFixed.process_sequence_number.
  destruct (Z.ltb_spec (ServerFixed.highest_seq_num s) q) as [Hlt|Hge];
    split; simpl; try done; try lia.
  - intros x [->%elem_of_singleton|Hx]%elem_of_union; [lia|].
    specialize (Hr x Hx). lia.
  - right. split; [apply elem_of_add|lia].
  - intros x [->%elem_of_singleton|Hx]%elem_of_union; [lia|]. by apply Hr.
  - right. split; [|lia].
    destruct Hs as [[? _]|[Hin _]]; [lia|]. apply elem_of_union. by right.
Qed.

Lemma fixed_counted_handle_client s m :
  0 ≤ Wire.seq_num m → fixed_counted s →
  fixed_counted (ServerFixed.handle_client s m).1.
Proof.
  intros Hq Hs. apply (fixed_counted_process s (Wire.seq_num m) Hq) in Hs.
  unfold ServerFixed.handle_client.
  set (s1 := ServerFixed.process_sequence_number s (Wire.seq_num m)) in *.
  set (s2 := ServerFixed.append_window_size (Wire.window_size m) s1).
  assert (H2 : fixed_counted s2) by (destruct Hs; by split).
  pose proof (fixed_counted_size s2 H2) as Hsz.
  pose proof (fixed_counted_nonempty s2 H2) as Hne.
  unfold ServerFixed.measure, ServerFixed.measurement_due, ServerFixed.goodput.
  clearbody s2.
  destruct ((_ =? 0) && _) eqn:Edue; simpl; [|done].
  apply andb_true_iff in Edue as [_ Hpos%Z.ltb_lt].
  specialize (Hne (or_introl Hpos)).
  rewrite py_truediv_nonzero by lia. simpl.
  destruct H2 as [Hr He Hst Hm]. split; simpl; try done.
  apply Forall_app. split; [done|]. apply Forall_singleton.
  by apply ratio_unit.
Qed.

Lemma fixed_counted_run ms :
  forallb numbered ms = true →
  fixed_counted (ServerFixed.run ServerFixed.init ms).
Proof.
  induction ms as [|m ms IH] using rev_ind; intros Hok;
    [apply fixed_counted_init|].
  rewrite forallb_app in Hok. apply andb_true_iff in Hok as [Hms Hm].
  simpl in Hm. rewrite andb_true_r in Hm. apply Z.leb_le in Hm.
  rewrite fixed_run_snoc. by apply fixed_counted_handle_client; [|apply IH].
Qed.

Lemma fixed_handle_client_received s m :
  Wire.seq_num m
  ∈ ServerFixed.received_packets (ServerFixed.handle_client s m).1.
Proof.
  unfold ServerFixed.handle_client.
  assert (Wire.seq_num m ∈ ServerFixed.received_packets
            (ServerFixed.process_sequence_number s (Wire.seq_num m)))
    by apply elem_of_add.
  by destruct (ServerFixed.measure _).
Qed.

Lemma fixed_handle_client_ack s m a :
  (ServerFixed.handle_client s m).2 = Some a →
  a = Wire.ack_of_server_fixed (Wire.seq_num m).
Proof.
  unfold ServerFixed.handle_client.
  destruct (ServerFixed.measure _); simpl; congruence.
Qed.

Lemma fixed_note_missing_mono received l acc :
  acc.1 ⊆ (foldl (ServerFixed.note_missing received) acc l).1.
Proof.
  revert acc. induction l as [|i l IH]; intros acc; simpl; [done|].
  etrans; [|apply IH]. unfold ServerFixed.note_missing.
  destruct (negb _); simpl; [apply union_subseteq_r|done].
Qed.

Lemma fixed_missing_mono_step s m :
  ServerFixed.missing_packets s
  ⊆ ServerFixed.missing_packets (ServerFixed.handle_client s m).1.
Proof.
  unfold ServerFixed.handle_client.
  assert (ServerFixed.missing_packets s ⊆
          ServerFixed.missing_packets
            (ServerFixed.process_sequence_number s (Wire.seq_num m))).
  { unfold ServerFixed.process_sequence_number. simpl.
    destruct (_ <? _); simpl; [|done].
    apply (fixed_note_missing_mono _ _
             (ServerFixed.missing_packets s, ServerFixed.seq_nums_dropped s)). }
  by destruct (ServerFixed.measure _).
Qed.

Lemma fixed_missing_mono_run s ms :
  ServerFixed.missing_packets s
  ⊆ ServerFixed.missing_packets (ServerFixed.run s ms).
Proof.
  induction ms as [|m ms IH] using rev_ind; [done|].
  rewrite fixed_run_snoc. etrans; [exact IH|apply fixed_missing_mono_step].
Qed.

(** ** Sender and receiver together, without loss *)

Lemma link_run_snoc cfg s evs e :
  Link.run cfg s (evs ++ [e]) = Link.step cfg (Link.run cfg s evs) e.
Proof. unfold Link.run. by rewrite foldl_snoc. Qed.

Lemma lossless_init N w : 0 ≤ N → lossless N w (Link.init w) 0 0 0.
Proof. intros HN. split; simpl; try done. lia. Qed.

Lemma lossless_step cfg N w s a b n e :
  Client.drop_probability cfg = 0%Q → Client.total_packets cfg = N →
  w + N ≤ 100 → Link.draw_ok e = true →
  lossless N w s a b n →
  ∃ a' b' n', lossless N w (Link.step cfg s e) a' b' n'.
Proof.
  intros Hp HN Hw He [Ho Hb Hn Hws Hack Hs Hd Hr Hq Htc Hts Hsv Hpc].
  destruct s as [c sv ts tc]; simpl in *.
  destruct e as [r|r| |]; simpl.
  - (* the main thread *)
    apply andb_true_iff in He as [He _].
    unfold Link.client_step; simpl. unfold Client.start_step.
    destruct (Client.pc c) eqn:Epc.
    + rewrite Hpc, Hs, Hn, Hb, Hws, HN, andb_true_r.
      destruct (Z.ltb_spec n N) as [Hlt|Hge].
      * destruct (Z.ltb_spec n (a + (w + a))); simpl.
        -- unfold Client.send_packet. rewrite (should_drop_never cfg r Hp He).
           exists a, b, (n + 1).
           split; simpl; rewrite ?app_nil_r, ?Epc; try done; try lia.
           rewrite fmap_app, Hts. simpl.
           replace (n + 1 - b) with ((n - b) + 1) by lia.
           rewrite seqZ_snoc by lia. do 2 f_equal. lia.
        -- exists a, b, n. split; simpl; rewrite ?app_nil_r, ?Epc; try done.
      * exists a, b, n. split; simpl; rewrite ?app_nil_r; try done.
        split; [done|lia].
    + destruct Hpc as [Hrun HnN].
      rewrite Hrun, Hack, size_prefix_set, HN, andb_true_r by lia.
      destruct (Z.ltb_spec a N).
      * exists a, b, n. split; simpl; rewrite ?app_nil_r, ?Epc; try done.
      * exists a, b, n. split; simpl; rewrite ?app_nil_r; try done. lia.
    + exists a, b, n. split; simpl; rewrite ?app_nil_r, ?Epc; try done.
  - (* the retransmission thread: its queue is empty *)
    unfold Link.client_step; simpl.
    unfold Client.handle_retransmissions. rewrite Hq.
    exists a, b, n.
    destruct (Client.running c) eqn:Er;
      split; simpl; rewrite ?app_nil_r, ?Er; try done.
  - (* the receiver reads an announcement *)
    destruct ts as [|m ts]; simpl.
    + exists a, b, n. split; simpl; rewrite ?app_nil_r; try done.
    + simpl in Hts. symmetry in Hts.
      apply seqZ_head in Hts as (Hm & Hlen & Hrest).
      destruct (handle_client_ack sv m Hsv) as [Hack' Hexp].
      destruct (Server.handle_client sv m) as [sv' ack]; simpl in *. subst ack.
      exists a, (b + 1), n.
      split; simpl; rewrite ?app_nil_r; try done; try lia.
      * rewrite Htc, Hm.
        replace (b + 1 - a) with ((b - a) + 1) by lia.
        rewrite seqZ_snoc by lia. rewrite fmap_app. simpl.
        do 3 f_equal. lia.
      * etrans; [exact Hrest|f_equal; lia].
  - (* the sender reads an acknowledgment *)
    destruct tc as [|m tc]; simpl.
    + exists a, b, n. split; simpl; rewrite ?app_nil_r; try done.
    + symmetry in Htc. apply fmap_cons_inv in Htc as (x & l & -> & -> & Hx).
      apply seqZ_head in Hx as (-> & Hlen & ->).
      assert (Hrun : Client.running c = true).
      { destruct (Client.pc c); [done|by destruct Hpc|lia]. }
      rewrite Hrun. simpl.
      unfold Client.receive_acks, Wire.ack_of_server.
      rewrite lookup_singleton_eq. replace (a + 1 - 1) with a by lia.
      rewrite Hack.
      rewrite bool_decide_eq_false_2 by (rewrite elem_of_prefix_set; lia).
      simpl. rewrite Hb, Z.eqb_refl. simpl. rewrite Hws.
      destruct (Z.ltb_spec (w + a) 100); [|lia].
      unfold Client.find_new_base. simpl. rewrite Hn, Hb.
      rewrite prefix_set_succ by lia.
      rewrite advance_base_prefix by lia.
      exists (a + 1), b, n.
      split; simpl; rewrite ?app_nil_r; try done; try lia.
      * by replace (b - (a + 1)) with (b - a - 1) by lia.
      * destruct (Client.pc c); [done|done|lia].
Qed.

Lemma lossless_run cfg N w evs :
  Client.drop_probability cfg = 0%Q → Client.total_packets cfg = N →
  0 ≤ N → w + N ≤ 100 → forallb Link.draw_ok evs = true →
  ∃ a b n, lossless N w (Link.run cfg (Link.init w) evs) a b n.
Proof.
  intros Hp HN H0 Hw.
  induction evs as [|e evs IH] using rev_ind; intros Hok.
  - exists 0, 0, 0. by apply lossless_init.
  - rewrite forallb_app in Hok. apply andb_true_iff in Hok as [Hevs He].
    simpl in He. rewrite andb_true_r in He.
    destruct (IH Hevs) as (a & b & n & Hinv).
    rewrite link_run_snoc. by eapply lossless_step.
Qed.

(** ** The sender's window *)

(** C5.  Whatever the sender has been through (admissions, retransmission
    passes, acknowledgments in any order and with any duplication, a stop)
    and whatever happens next, the window base does not decrease in that
    step and does not exceed [next_seq_num] after it. *)
Theorem C5_base_monotone_and_bounded
  (cfg : Client.config) (w : Z) (evs : list Client.event) (e : Client.event) :
  let s := Client.run cfg (Client.started w) evs in
  let s' := (Client.step cfg s e).1 in
  Client.base s ≤ Client.base s' ∧ Client.base s' ≤ Client.next_seq_num s'.
Proof. intros s s'. apply step_base, run_base. Qed.

(** C6.  A sender started with a window of at most 100: in every step of
    every run the window size does not decrease, and it is at most 100
    after the step. *)
Theorem C6_window_size_monotone_and_capped
  (cfg : Client.config) (w : Z) (evs : list Client.event) (e : Client.event) :
  w ≤ 100 →
  let s := Client.run cfg (Client.started w) evs in
  let s' := (Client.step cfg s e).1 in
  Client.window_size s ≤ Client.window_size s' ∧ Client.window_size s' ≤ 100.
Proof.
  intros Hw s s'.
  pose proof (run_window cfg w evs Hw) as Hs. fold s in Hs.
  pose proof (step_window cfg s e) as He. fold s' in He. lia.
Qed.

Lemma C6_window_witness :
  4 ≤ 100 ∧
  let s := Client.run (lossless_cfg 100) (Client.started 4) short_run in
  let s' := (Client.step (lossless_cfg 100) s
               (Client.Ack (Wire.ack_of_server 1))).1 in
  Client.window_size s ≤ Client.window_size s' ∧ Client.window_size s' ≤ 100.
Proof.
  split; [lia|].
  apply (C6_window_size_monotone_and_capped (lossless_cfg 100) 4 short_run).
  lia.
Defined.

(** C8.  Handing the same acknowledgment to the acknowledgment thread
    twice in a row leaves the sender in the state reached after the first:
    every field of the state is the same. *)
Theorem C8_ack_twice_is_ack_once
  (cfg : Client.config) (s : Client.state) (message : gmap string Z) :
  Client.run cfg s [Client.Ack message; Client.Ack message]
  = Client.run cfg s [Client.Ack message].
Proof.
  unfold Client.run. simpl.
  destruct (Client.running s) eqn:Er; simpl; [|by rewrite Er].
  destruct (receive_acks_frame s message) as (_ & _ & _ & _ & ->).
  rewrite Er. simpl. apply receive_acks_twice.
Qed.

(** The first acknowledgment of the base does change the state, and the
    loop that moves the base has stopped by its own test. *)
Example ack_of_base_moves_window_once :
  let s := Client.run (lossless_cfg 100) (Client.started 4)
             [Client.Main (1 # 2); Client.Main (1 # 2); Client.Main (1 # 2)] in
  let s' := Client.receive_acks s (Wire.ack_of_server 0) in
  (Client.base s, Client.window_size s) = (0, 4) ∧
  (Client.base s', Client.window_size s') = (1, 5) ∧
  Client.receive_acks s' (Wire.ack_of_server 0) = s'.
Proof. repeat split; vm_compute; reflexivity. Qed.

(** ** Termination of the sender *)

(** C3.  Two packets, packet 0 dropped at its first transmission, then
    retransmitted; both packets are acknowledged.  Every sequence number
    has been admitted and the acknowledged set has [total_packets]
    elements, yet however many further steps the main thread takes it is
    still in its admission loop with [running] set: it never reaches the
    loop that waits for acknowledgments and never finishes. *)
Theorem C3_dropped_first_transmission_keeps_sender_admitting (rs : list Q) :
  let s := Client.run drop_cfg (Client.started 4)
             (drop_run ++ (Client.Main <$> rs)) in
  Client.next_seq_num s = Client.total_packets drop_cfg ∧
  Z.of_nat (size (Client.acked_packets s)) = Client.total_packets drop_cfg ∧
  Client.total_dropped s = 1 ∧
  Client.total_retransmitted s = 1 ∧
  Client.pc s = Client.Admitting ∧ Client.running s = true.
Proof.
  intros s. unfold s. rewrite run_app, spinning_mains.
  - repeat split; vm_compute; reflexivity.
  - repeat split; vm_compute; (reflexivity || discriminate).
Qed.

(** Without any drop the same two packets take the sender through the
    waiting loop to the end. *)
Example no_drop_run_finishes :
  let s := Client.run drop_cfg (Client.started 4)
             [Client.Main (3 # 4); Client.Main (3 # 4);
              Client.Ack (Wire.ack_of_server 0); Client.Ack (Wire.ack_of_server 1);
              Client.Main (3 # 4); Client.Main (3 # 4)] in
  Client.pc s = Client.Finished ∧ Client.running s = false ∧
  Z.of_nat (size (Client.acked_packets s)) = Client.total_packets drop_cfg.
Proof. repeat split; vm_compute; reflexivity. Qed.

(** ** The scenario without loss *)

(** C1, as the code has it.  Drop probability 0, initial window 4, ten
    packets, against the [server.py] receiver, under any interleaving of
    the threads and of the two streams: when the main thread has finished,
    the acknowledged set is exactly 0..9, nothing was dropped or
    retransmitted, and the window size is 14, one more for each of the ten
    acknowledgments that moved the base. *)
Theorem C1_lossless_run_acks_all_and_window_grows
  (retransmit_after : Z) (evs : list Link.event) :
  forallb Link.draw_ok evs = true →
  let c := Link.client (Link.run (lossless_cfg retransmit_after) (Link.init 4) evs) in
  Client.pc c = Client.Finished →
  Client.acked_packets c = list_to_set (seqZ 0 10) ∧
  Client.total_retransmitted c = 0 ∧
  Client.total_dropped c = 0 ∧
  Client.window_size c = 14.
Proof.
  intros Hok c Hfin.
  destruct (lossless_run (lossless_cfg retransmit_after) 10 4 evs)
    as (a & b & n & Hinv); try done.
  destruct Hinv as [Ho Hb Hn Hws Hack Hs Hd Hr Hq Htc Hts Hsv Hpc].
  fold c in Hpc, Hack, Hr, Hd, Hws. rewrite Hfin in Hpc.
  rewrite Hack, Hr, Hd, Hws, Hpc. done.
Qed.

Lemma C1_lockstep_run_witness :
  let c := Link.client
             (Link.run (lossless_cfg 100) (Link.init 4) lockstep_schedule) in
  forallb Link.draw_ok lockstep_schedule = true ∧
  Client.pc c = Client.Finished ∧
  Client.acked_packets c = list_to_set (seqZ 0 10) ∧
  Client.total_retransmitted c = 0 ∧
  Client.total_dropped c = 0 ∧
  Client.window_size c = 14.
Proof.
  split; [reflexivity|]. split; [vm_compute; reflexivity|].
  apply (C1_lossless_run_acks_all_and_window_grows 100 lockstep_schedule);
    vm_compute; reflexivity.
Defined.

(** C1 as stated fails: a complete run of the scenario, all ten packets
    acknowledged and nothing retransmitted, ends with a window size that
    is not the initial 4. *)
Lemma C1_final_window_is_not_initial :
  let c := Link.client
             (Link.run (lossless_cfg 100) (Link.init 4) lockstep_schedule) in
  Client.pc c = Client.Finished ∧
  Z.of_nat (size (Client.acked_packets c)) = 10 ∧
  Client.total_retransmitted c = 0 ∧
  Client.window_size c ≠ 4.
Proof. vm_compute. repeat split; discriminate. Qed.

(** ** Acknowledgments *)

(** C2, as the code has it.  [server.py] answers every announcement it
    processes with ['ack_num' = seq_num + 1], where [seq_num] is the number
    just processed; that number is in [received_packets] when the
    acknowledgment leaves, and the sender marks exactly [ack_num - 1], which
    is [seq_num].  Nothing is implied about smaller numbers.
    [server_fixed.py] answers with ['ack' = seq_num], also for a number in
    its [received_packets]; the sender, which reads ['ack_num'], does
    nothing with it. *)
Theorem C2_ack_names_the_announcement_just_processed
  (ms : list Wire.announcement) (m : Wire.announcement)
  (c : Client.state) (f : ServerFixed.state) :
  let s := Server.run Server.init ms in
  let seq := Wire.seq_num m in
  ((Server.handle_client s m).2 = Some (Wire.ack_of_server seq) ∧
   Wire.ack_of_server seq !! "ack_num" = Some (seq + 1) ∧
   seq ∈ Server.received_packets (Server.handle_client s m).1 ∧
   Client.acked_packets (Client.receive_acks c (Wire.ack_of_server seq))
   = {[seq]} ∪ Client.acked_packets c) ∧
  ((∀ a, (ServerFixed.handle_client f m).2 = Some a →
         a = Wire.ack_of_server_fixed seq) ∧
   Wire.ack_of_server_fixed seq !! "ack" = Some seq ∧
   Wire.ack_of_server_fixed seq !! "ack_num" = None ∧
   seq ∈ ServerFixed.received_packets (ServerFixed.handle_client f m).1 ∧
   Client.receive_acks c (Wire.ack_of_server_fixed seq) = c).
Proof.
  intros s seq. split.
  - destruct (counted_run ms) as [Hr Hle _ _]. fold s in Hr, Hle.
    destruct (handle_client_ack s m) as [Hack _]; [lia|].
    refine (conj Hack (conj _ (conj _ _))).
    + apply lookup_singleton_eq.
    + apply handle_client_received.
    + apply receive_acks_adds.
  - refine (conj _ (conj _ (conj _ (conj _ _)))).
    + apply fixed_handle_client_ack.
    + apply lookup_singleton_eq.
    + by apply lookup_singleton_ne.
    + apply fixed_handle_client_received.
    + apply receive_acks_ignores_fixed.
Qed.

Lemma C2_ack_witness :
  let f := ServerFixed.run ServerFixed.init (announce <$> [0; 1]) in
  (ServerFixed.handle_client f (announce 3)).2 = Some {[ "ack" := 3 ]} ∧
  ({[ "ack" := 3 ]} : gmap string Z) = Wire.ack_of_server_fixed 3.
Proof.
  split; [vm_compute; reflexivity|].
  destruct (C2_ack_names_the_announcement_just_processed
              (announce <$> [0; 1]) (announce 3) (Client.started 4)
              (ServerFixed.run ServerFixed.init (announce <$> [0; 1])))
    as [_ [Hack _]].
  apply Hack. vm_compute; reflexivity.
Defined.

(** C2 as stated fails.  After 0 and 1, [server.py] answers announcement 3
    with the value 4 although 2, which is below 4, has not been received;
    and the acknowledgment of [server_fixed.py] for 3 carries 3, from which
    the sender recovers nothing. *)
Lemma C2_ack_is_not_cumulative :
  let s := Server.run Server.init (announce <$> [0; 1]) in
  let r := Server.handle_client s (announce 3) in
  let f := ServerFixed.run ServerFixed.init (announce <$> [0; 1]) in
  let r' := ServerFixed.handle_client f (announce 3) in
  (r.2 = Some {[ "ack_num" := 4 ]} ∧ 0 ≤ 2 < 4 ∧ 2 ∉ Server.received_packets r.1) ∧
  (r'.2 = Some {[ "ack" := 3 ]} ∧
   Client.acked_packets (Client.receive_acks (Client.started 4) {[ "ack" := 3 ]}) = ∅).
Proof.
  split; split; try (vm_compute; reflexivity).
  split; [lia|]. apply computed_non_member. vm_compute. reflexivity.
Qed.

(** ** Gaps and goodput *)

(** C4, as the code has it.  After announcements 0, 1, 3 the gap set is
    {2} in both receivers; the goodput at that point is 3/3 in [server.py]
    (three distinct numbers out of three announcements) and 3/4 in
    [server_fixed.py] (three out of highest + 1).  When 2 arrives it is
    marked received, the goodput is 4/4 in both, and 2 stays in the gap
    set whatever is announced later. *)
Theorem C4_gap_scenario (later : list Wire.announcement) :
  let s3 := Server.run Server.init gap_prefix in
  let f3 := ServerFixed.run ServerFixed.init gap_prefix in
  let s4 := Server.run Server.init gap_filled in
  let f4 := ServerFixed.run ServerFixed.init gap_filled in
  (Server.missing_packets s3 = {[2]} ∧ ServerFixed.missing_packets f3 = {[2]}) ∧
  (Server.goodput s3 = Some (ratio 3 3) ∧
   ServerFixed.goodput f3 = Some (ratio 3 4)) ∧
  (2 ∈ Server.received_packets s4 ∧ 2 ∈ ServerFixed.received_packets f4) ∧
  (Server.goodput s4 = Some (ratio 4 4) ∧
   ServerFixed.goodput f4 = Some (ratio 4 4)) ∧
  (2 ∈ Server.missing_packets (Server.run s4 later) ∧
   2 ∈ ServerFixed.missing_packets (ServerFixed.run f4 later)).
Proof.
  intros s3 f3 s4 f4.
  assert (H4 : Server.missing_packets s4 = {[2]}) by (vm_compute; reflexivity).
  assert (F4 : ServerFixed.missing_packets f4 = {[2]})
    by (vm_compute; reflexivity).
  split; [split; vm_compute; reflexivity|].
  split; [split; vm_compute; reflexivity|].
  split; [split; apply computed_member; vm_compute; reflexivity|].
  split; [split; vm_compute; reflexivity|].
  split.
  - apply (missing_mono_run s4 later). rewrite H4. by apply elem_of_singleton.
  - apply (fixed_missing_mono_run f4 later). rewrite F4.
    by apply elem_of_singleton.
Qed.

(** C4 as stated fails: after 0, 1, 3 the gap set is {2}, but the goodput
    is not 2/3 in either receiver. *)
Lemma C4_goodput_is_not_two_thirds :
  let s3 := Server.run Server.init gap_prefix in
  let f3 := ServerFixed.run ServerFixed.init gap_prefix in
  Server.missing_packets s3 = {[2]} ∧
  (∃ g, Server.goodput s3 = Some g ∧ ¬ (g == 2 # 3)%Q) ∧
  (∃ g, ServerFixed.goodput f3 = Some g ∧ ¬ (g == 2 # 3)%Q).
Proof.
  split; [vm_compute; reflexivity|].
  split; eexists; (split; [vm_compute; reflexivity|]);
    intros H; vm_compute in H; discriminate.
Qed.

(** C7.  In [server.py], after any announcements: at connection close the
    goodput reported is exactly received / expected when the expected count
    is positive, and nothing is reported (no division) when it is zero; the
    periodic measurement, when its test fires, records exactly
    received / expected of that moment, and it never divides by zero. *)
Theorem C7_goodput_is_ratio_or_unavailable
  (ms : list Wire.announcement) (m : Wire.announcement) :
  let s := Server.run Server.init ms in
  let s1 := at_measurement s m in
  (0 < Server.total_packets_expected s →
   Server.calculate_final_statistics s
   = Server.FinalGoodput
       (ratio (Server.total_packets_received s)
              (Server.total_packets_expected s))) ∧
  (Server.total_packets_expected s = 0 →
   Server.calculate_final_statistics s = Server.NoPacketsProcessed) ∧
  0 ≤ Server.total_packets_expected s ∧
  0 < Server.total_packets_expected s1 ∧
  Server.measure s1
  = (if Server.measurement_due s1
     then Server.Measured
            (ratio (Server.total_packets_received s1)
                   (Server.total_packets_expected s1))
     else Server.NotDue) ∧
  Server.goodput_measurements (Server.handle_client s m).1
  = Server.goodput_measurements s ++
      (if Server.measurement_due s1
       then [ratio (Server.total_packets_received s1)
                   (Server.total_packets_expected s1)]
       else []).
Proof.
  intros s s1.
  pose proof (counted_run ms) as Hs. fold s in Hs.
  pose proof (counted_at_measurement s m Hs) as Hs1. fold s1 in Hs1.
  pose proof (at_measurement_expected s m) as He1. fold s1 in He1.
  pose proof (at_measurement_goodputs s m) as Hg. fold s1 in Hg.
  destruct Hs as [Hr He Hst _].
  assert (H0 : 0 ≤ Server.total_packets_expected s) by lia.
  assert (Hpos : 0 < Server.total_packets_expected s1) by lia.
  pose proof (measure_counted s1 Hs1 Hpos) as Hm.
  repeat split; try done.
  - intros Hexp. unfold Server.calculate_final_statistics, Server.goodput.
    destruct (Z.eqb_spec (Server.total_packets_expected s) 0); [lia|].
    rewrite py_truediv_nonzero by done. by rewrite Hr.
  - intros Hz. unfold Server.calculate_final_statistics. by rewrite Hz.
  - unfold Server.handle_client. fold (at_measurement s m). fold s1.
    rewrite Hm. clearbody s1.
    destruct (Server.measurement_due s1); simpl; rewrite Hg; [done|].
    by rewrite app_nil_r.
Qed.

Lemma C7_goodput_witness :
  let s := Server.run Server.init gap_prefix in
  (0 < Server.total_packets_expected s ∧
   Server.calculate_final_statistics s = Server.FinalGoodput (ratio 3 3)) ∧
  (Server.total_packets_expected Server.init = 0 ∧
   Server.calculate_final_statistics Server.init = Server.NoPacketsProcessed).
Proof.
  split.
  - split; [vm_compute; reflexivity|].
    destruct (C7_goodput_is_ratio_or_unavailable gap_prefix (announce 2))
      as [H _].
    apply H. vm_compute; reflexivity.
  - split; [reflexivity|].
    destruct (C7_goodput_is_ratio_or_unavailable [] (announce 0))
      as [_ [H _]].
    apply H. reflexivity.
Defined.

(** The periodic measurement after a thousand distinct announcements, and
    again when a duplicate arrives while the count of distinct numbers is
    still a thousand. *)
Example periodic_goodput_after_a_thousand :
  let s := Server.run Server.init thousand in
  Server.goodput_measurements s = [ratio 1000 1000] ∧
  Server.goodput_measurements (Server.handle_client s (announce 7)).1
  = [ratio 1000 1000; ratio 1000 1001].
Proof. split; vm_compute; reflexivity. Qed.

(** C9.  In [server.py], after any announcements and one more call of
    [process_sequence_number], [total_packets_received] is the number of
    elements of [received_packets]; a number already received leaves both
    unchanged and is counted in [retransmission_stats] instead. *)
Theorem C9_received_count_is_cardinality
  (ms : list Wire.announcement) (q : Z) :
  let s := Server.run Server.init ms in
  let s' := Server.process_sequence_number s q in
  Server.total_packets_received s'
  = Z.of_nat (size (Server.received_packets s')) ∧
  (q ∈ Server.received_packets s →
   Server.total_packets_received s' = Server.total_packets_received s ∧
   Server.received_packets s' = Server.received_packets s ∧
   default 0 (Server.retransmission_stats s' !! q)
   = default 0 (Server.retransmission_stats s !! q) + 1).
Proof.
  intros s s'. split.
  - apply counted_process, counted_run.
  - intros Hin. unfold s', Server.process_sequence_number.
    rewrite bool_decide_eq_true_2 by done. simpl.
    by rewrite lookup_insert_eq.
Qed.

Lemma C9_duplicate_witness :
  let s := Server.run Server.init gap_prefix in
  let s' := Server.process_sequence_number s 1 in
  1 ∈ Server.received_packets s ∧
  Server.total_packets_received s' = Server.total_packets_received s ∧
  Server.received_packets s' = Server.received_packets s ∧
  default 0 (Server.retransmission_stats s' !! 1)
  = default 0 (Server.retransmission_stats s !! 1) + 1.
Proof.
  split; [apply computed_member; vm_compute; reflexivity|].
  destruct (C9_received_count_is_cardinality gap_prefix 1) as [_ H].
  apply H. apply computed_member. vm_compute; reflexivity.
Defined.

(** C10.  For announcements with unsigned sequence numbers, in both
    receivers: [received_packets] never has more elements than
    [total_packets_expected], every goodput recorded by the periodic
    measurement lies in (0, 1], and so does the final goodput whenever one
    is reported. *)
Theorem C10_received_within_expected (ms : list Wire.announcement) :
  forallb numbered ms = true →
  let s := Server.run Server.init ms in
  let f := ServerFixed.run ServerFixed.init ms in
  (Z.of_nat (size (Server.received_packets s)) ≤ Server.total_packets_expected s ∧
   Forall unit_goodput (Server.goodput_measurements s) ∧
   ∀ g, Server.calculate_final_statistics s = Server.FinalGoodput g →
        unit_goodput g) ∧
  (Z.of_nat (size (ServerFixed.received_packets f))
   ≤ ServerFixed.total_packets_expected f ∧
   Forall unit_goodput (ServerFixed.goodput_measurements f) ∧
   ∀ g, ServerFixed.calculate_final_statistics f = Server.FinalGoodput g →
        unit_goodput g).
Proof.
  intros Hok s f. split.
  - destruct (counted_run ms) as [Hr He Hst Hm]. fold s in Hr, He, Hst, Hm.
    split; [lia|]. split; [done|]. intros g Hg.
    unfold Server.calculate_final_statistics, Server.goodput in Hg.
    destruct (Z.eqb_spec (Server.total_packets_expected s) 0); [done|].
    rewrite py_truediv_nonzero in Hg by done. injection Hg as <-.
    apply ratio_unit; lia.
  - pose proof (fixed_counted_run ms Hok) as Hf. fold f in Hf.
    pose proof (fixed_counted_size f Hf) as Hsz.
    pose proof (fixed_counted_nonempty f Hf) as Hne.
    destruct Hf as [_ _ _ Hm].
    split; [done|]. split; [done|]. intros g Hg.
    unfold ServerFixed.calculate_final_statistics, ServerFixed.goodput in Hg.
    destruct (Z.eqb_spec (ServerFixed.total_packets_expected f) 0); [done|].
    rewrite py_truediv_nonzero in Hg by done. injection Hg as <-.
    apply ratio_unit; [|done]. apply Hne. by right.
Qed.

Lemma C10_gap_witness :
  forallb numbered gap_filled = true ∧
  let s := Server.run Server.init gap_filled in
  let f := ServerFixed.run ServerFixed.init gap_filled in
  Z.of_nat (size (Server.received_packets s)) ≤ Server.total_packets_expected s ∧
  Z.of_nat (size (ServerFixed.received_packets f))
  ≤ ServerFixed.total_packets_expected f.
Proof.
  split; [reflexivity|].
  destruct (C10_received_within_expected gap_filled) as [[H _] [H' _]];
    [reflexivity|].
  split; [exact H|exact H'].
Defined.

(** The bound of C10 is about unsigned sequence numbers: [server_fixed.py]
    sets [total_packets_expected] to highest + 1 and leaves it at 0 for an
    announcement below 0. *)
Example fixed_receiver_negative_number :
  let f := ServerFixed.run ServerFixed.init [announce (-1)] in
  numbered (announce (-1)) = false ∧
  size (ServerFixed.received_packets f) = 1%nat ∧
  ServerFixed.total_packets_expected f = 0.
Proof. repeat split; vm_compute; reflexivity. Qed.

(** ** More about the sender *)

(** [receive_acks] writes [acked_packets], [base] and [window_size] only. *)
Lemma receive_acks_shape s m :
  Client.receive_acks s m
  = Client.set_window_size (Client.window_size (Client.receive_acks s m))
      (Client.set_base (Client.base (Client.receive_acks s m))
         (Client.set_acked_packets (Client.acked_packets (Client.receive_acks s m)) s)).
Proof.
  unfold Client.receive_acks. destruct s; simpl. repeat case_match; reflexivity.
Qed.

(** [handle_retransmissions] writes the queue and the retransmission
    statistics only. *)
Lemma handle_retransmissions_shape cfg s r :
  let s' := (Client.handle_retransmissions cfg s r).1 in
  s' = {| Client.window_size := Client.window_size s; Client.base := Client.base s;
       Client.next_seq_num := Client.next_seq_num s;
       Client.sent_packets := Client.sent_packets s;
       Client.acked_packets := Client.acked_packets s;
       Client.dropped_packets := Client.dropped_packets s;
       Client.packets_to_retransmit := Client.packets_to_retransmit s';
       Client.total_sent := Client.total_sent s;
       Client.total_dropped := Client.total_dropped s;
       Client.total_retransmitted := Client.total_retransmitted s';
       Client.window_sizes := Client.window_sizes s;
       Client.retransmission_counts := Client.retransmission_counts s';
       Client.running := Client.running s; Client.pc := Client.pc s |}.
Proof.
  unfold Client.handle_retransmissions. destruct s; simpl. repeat case_match; reflexivity.
Qed.

Lemma strongly_sorted_snoc (l : list Z) (x : Z) :
  StronglySorted Z.le l → Forall (λ y, y ≤ x) l → StronglySorted Z.le (l ++ [x]).
Proof.
  intros Hs Hl. induction Hs as [|y l Hs IH Hy]; simpl.
  - repeat constructor.
  - apply Forall_cons in Hl as [Hyx Hl]. constructor; [by apply IH|].
    apply Forall_app. split; [done|]. by apply Forall_singleton.
Qed.

Lemma flow_step cfg w s e : flow cfg w s → flow cfg w (Client.step cfg s e).1.
Proof.
  intros [Hb Ht Hw Hg Hn Hr Hs]. destruct e as [r|m|r|]; simpl.
  - unfold Client.start_step, Client.send_packet.
    destruct (Client.pc s); [|by destruct (_ && _); split..|by split].
    destruct (_ && Client.running s); [|by split].
    destruct (Z.ltb_spec (Client.next_seq_num s) (Client.base s + Client.window_size s));
      [|by split].
    destruct (Z.ltb_spec (Client.next_seq_num s) (Client.total_packets cfg));
      [|by split]. simpl.
    destruct (Client.should_drop cfg r); split; simpl; try lia.
    all: try (rewrite length_app; simpl; lia).
    all: try (apply Forall_app; split; [done|apply Forall_singleton; lia]).
    all: apply strongly_sorted_snoc; [done|]; eapply Forall_impl; [exact Hr|]; simpl; lia.
  - destruct (Client.running s); simpl; [|by split].
    pose proof (receive_acks_base s m (proj2 Hb)) as Hbase.
    pose proof (receive_acks_window s m) as [Hwin _].
    destruct (receive_acks_frame s m) as (_ & _ & Hnext & _ & _).
    assert (Hsamples : Client.window_sizes (Client.receive_acks s m) = Client.window_sizes s).
    { by rewrite receive_acks_shape. }
    split; rewrite ?Hsamples, ?Hnext in *; try done; try lia.
    eapply Forall_impl; [exact Hr|]. simpl. lia.
  - destruct (Client.running s); simpl; [|by split].
    rewrite (handle_retransmissions_shape cfg s r). by split.
  - by split.
Qed.

Lemma first_sent_step cfg s e : first_sent s → first_sent (Client.step cfg s e).1.
Proof.
  intros [Hn Hc Hd Hs Hdr]. destruct e as [r|m|r|]; simpl.
  - unfold Client.start_step, Client.send_packet.
    destruct (Client.pc s); [|by destruct (_ && _); split..|by split].
    destruct (_ && Client.running s); [|by split].
    destruct (_ && _); [|by split].
    assert (Hfresh : Client.next_seq_num s ∉ Client.sent_packets s ∪ Client.dropped_packets s).
    { rewrite Hc, elem_of_prefix_set. lia. }
    apply not_elem_of_union in Hfresh as [Hfs Hfd].
    destruct (Client.should_drop cfg r); split; simpl; try lia.
    + apply set_eq. intros x. rewrite <- prefix_set_succ, <- Hc by done.
      rewrite !elem_of_union, elem_of_singleton. tauto.
    + intros x Hx [->%elem_of_singleton|Hy]%elem_of_union; [done|by apply (Hd x)].
    + rewrite size_add_fresh by done. lia.
    + apply set_eq. intros x. rewrite <- prefix_set_succ, <- Hc by done.
      rewrite !elem_of_union, elem_of_singleton. tauto.
    + intros x [->%elem_of_singleton|Hx]%elem_of_union Hy; [done|by apply (Hd x)].
    + rewrite size_add_fresh by done. lia.
  - destruct (Client.running s); simpl; [|by split].
    rewrite receive_acks_shape. by split.
  - destruct (Client.running s); simpl; [|by split].
    rewrite (handle_retransmissions_shape cfg s r). by split.
  - by split.
Qed.

Lemma queued_step cfg s e : queued cfg s → queued cfg (Client.step cfg s e).1.
Proof.
  intros Hinv. pose proof Hinv as [H0 He Hn Hs Hc Ht].
  destruct e as [r|m|r|]; simpl.
  - unfold Client.start_step, Client.send_packet.
    destruct (Client.pc s); [|by destruct (_ && _); split..|done].
    destruct (_ && Client.running s); [|by split].
    destruct (_ && _); [|done].
    assert (Hfresh : Client.next_seq_num s ∉ (Client.packets_to_retransmit s).*1).
    { intros (e & Heq & Hin)%list_elem_of_fmap.
      rewrite Forall_forall in He. apply He in Hin. lia. }
    destruct (Client.should_drop cfg r); split; simpl; try done; try lia.
    + apply Forall_app. split.
      * eapply Forall_impl; [exact He|]. simpl. intros e (? & ? & ?).
        split; [apply elem_of_union; by right|lia].
      * apply Forall_singleton. simpl. split; [apply elem_of_add|lia].
    + rewrite fmap_app. apply NoDup_app. split; [done|]. split.
      * intros x Hx ->%list_elem_of_singleton. done.
      * apply NoDup_singleton.
    + rewrite fmap_app. apply strongly_sorted_snoc; [done|].
      apply Forall_fmap. eapply Forall_impl; [exact He|]. simpl. lia.
    + intros k v Hk. destruct (Hc k v Hk) as (? & ? & Hkn & Hnq).
      split; [done|]. split; [apply elem_of_union; by right|]. split; [lia|].
      rewrite fmap_app. simpl.
      intros [?|Hk'%list_elem_of_singleton]%elem_of_app; [done|lia].
    + eapply Forall_impl; [exact He|]. simpl. intros e (? & ? & ?).
      split; [done|lia].
    + intros k v Hk. destruct (Hc k v Hk) as (? & ? & ? & Hnq).
      split; [done|]. split; [done|]. split; [lia|done].
  - destruct (Client.running s); simpl; [|done].
    rewrite receive_acks_shape. by split.
  - destruct (Client.running s); simpl; [|done].
    unfold Client.handle_retransmissions.
    destruct (Client.packets_to_retransmit s) as [|[q d] rest] eqn:Eq; [done|].
    destruct (Z.leb_spec d (Client.next_seq_num s)); [|done].
    apply Forall_cons in He as [(Hqd & Hqn & Hdue) He].
    simpl in Hn, Hs, Hqd, Hqn, Hdue. apply NoDup_cons in Hn as [Hq Hn].
    apply StronglySorted_inv in Hs as [Hs Hd].
    assert (Hnc : Client.retransmission_counts s !! q = None).
    { destruct (_ !! q) as [v|] eqn:Ev; [|done].
      destruct (Hc q v Ev) as (_ & _ & _ & Hnq). exfalso. apply Hnq. simpl. left. }
    assert (Hc' : ∀ k v, Client.retransmission_counts s !! k = Some v →
                   v = 1 ∧ k ∈ Client.dropped_packets s ∧
                   0 ≤ k < Client.next_seq_num s ∧ k ≠ q ∧ k ∉ rest.*1).
    { intros k v Hk. destruct (Hc k v Hk) as (? & ? & ? & Hnq).
      simpl in Hnq. apply not_elem_of_cons in Hnq as [? ?]. done. }
    simpl. case_bool_decide; [|destruct (Client.should_drop cfg r)]; split; simpl; try done.
    + intros k v Hk. destruct (Hc' k v Hk) as (? & ? & ? & ? & ?). done.
    + apply Forall_app. split; [done|]. apply Forall_singleton. simpl. split; [done|lia].
    + rewrite fmap_app. apply NoDup_app. split; [done|]. split.
      * intros x Hx ->%list_elem_of_singleton. done.
      * apply NoDup_singleton.
    + rewrite fmap_app. apply strongly_sorted_snoc; [done|].
      apply Forall_fmap. eapply Forall_impl; [exact He|]. simpl. lia.
    + intros k v Hk. destruct (Hc' k v Hk) as (? & ? & ? & ? & ?).
      split; [done|]. split; [done|]. split; [done|].
      rewrite fmap_app. intros [?| ->%list_elem_of_singleton]%elem_of_app; done.
    + intros k v. rewrite Hnc. simpl. intros Hk.
      apply lookup_insert_Some in Hk as [[<- <-]|[Hne Hk]]; [done|].
      destruct (Hc' k v Hk) as (? & ? & ? & ? & ?). done.
    + rewrite map_size_insert_None by done. lia.
  - by split.
Qed.

Lemma advance_base_passed fuel acked next b x :
  b ≤ x < Client.advance_base fuel acked next b → x ∈ acked.
Proof.
  revert b. induction fuel as [|fuel IH]; intros b Hx; simpl in Hx; [lia|].
  destruct (bool_decide (b ∈ acked)) eqn:Eb; simpl in Hx; [|lia].
  destruct (b <? next); [|lia].
  apply bool_decide_eq_true_1 in Eb.
  destruct (decide (x = b)) as [->|Hne]; [done|]. apply (IH (b + 1)). lia.
Qed.

Lemma acked_below_step cfg s e :
  (∀ x, 0 ≤ x < Client.base s → x ∈ Client.acked_packets s) →
  ∀ x, 0 ≤ x < Client.base (Client.step cfg s e).1 →
       x ∈ Client.acked_packets (Client.step cfg s e).1.
Proof.
  intros Hs. destruct e as [r|m|r|]; simpl.
  - unfold Client.start_step, Client.send_packet.
    repeat case_match; simplify_eq; simpl; done.
  - destruct (Client.running s); simpl; [|done].
    unfold Client.receive_acks.
    destruct (m !! "ack_num") as [a|]; [|done].
    case_bool_decide; [done|]. simpl.
    destruct (Z.eqb_spec (a - 1) (Client.base s)) as [Heq|Hne]; simpl.
    + assert (Hb : ∀ x, 0 ≤ x < Client.find_new_base
                      (Client.set_acked_packets ({[a - 1]} ∪ Client.acked_packets s) s) →
                    x ∈ {[a - 1]} ∪ Client.acked_packets s).
      { intros x Hx. destruct (decide (x < Client.base s)) as [Hlt|Hge].
        - apply elem_of_union. right. apply Hs. lia.
        - eapply advance_base_passed. unfold Client.find_new_base in Hx.
          simpl in Hx. split; [|exact (proj2 Hx)]. lia. }
      by destruct (Client.window_size s <? 100).
    + intros x Hx. apply elem_of_union. right. by apply Hs.
  - destruct (Client.running s); simpl; [|done].
    by rewrite (handle_retransmissions_shape cfg s r).
  - done.
Qed.

Lemma growth_step cfg w s e :
  Client.window_size s - w ≤ Z.of_nat (size (Client.acked_packets s)) →
  Client.window_size (Client.step cfg s e).1 - w
  ≤ Z.of_nat (size (Client.acked_packets (Client.step cfg s e).1)).
Proof.
  intros Hs. destruct e as [r|m|r|]; simpl.
  - unfold Client.start_step, Client.send_packet.
    repeat case_match; simplify_eq; simpl; done.
  - destruct (Client.running s); simpl; [|done].
    unfold Client.receive_acks.
    destruct (m !! "ack_num") as [a|]; [|done].
    case_bool_decide as Ha; [done|]. simpl.
    destruct (a - 1 =? Client.base s); simpl;
      [destruct (Client.window_size s <? 100); simpl|];
      rewrite size_add_fresh by done; lia.
  - destruct (Client.running s); simpl; [|done].
    by rewrite (handle_retransmissions_shape cfg s r).
  - done.
Qed.

Lemma step_announced cfg s e :
  first_sent s → queued cfg s →
  let s' := (Client.step cfg s e).1 in
  let out := (Client.step cfg s e).2 in
  (out = [] ∧ announced s' = announced s ∧
   Client.total_sent s' + Client.total_retransmitted s'
   = Client.total_sent s + Client.total_retransmitted s)
  ∨ (∃ q, out = [Client.message_of q s] ∧ (q ∉ announced s) ∧
          0 ≤ q < Client.next_seq_num s' ∧
          announced s' = {[q]} ∪ announced s ∧
          Client.total_sent s' + Client.total_retransmitted s'
          = Client.total_sent s + Client.total_retransmitted s + 1).
Proof.
  intros [Hn Hc Hd Hs Hdr] [_ He Hnd Hso Hcn Ht]. destruct e as [r|m|r|]; simpl.
  - unfold Client.start_step, Client.send_packet.
    destruct (Client.pc s); [|by destruct (_ && _); left..|by left].
    destruct (_ && Client.running s); [|by left].
    destruct (_ && _); [|by left].
    destruct (Client.should_drop cfg r); simpl; [by left|].
    right. exists (Client.next_seq_num s). split; [done|]. split; [|split; [lia|]].
    + unfold announced. intros [Hin|Hin]%elem_of_union.
      * assert (Hp : Client.next_seq_num s ∈ prefix_set (Client.next_seq_num s)).
        { rewrite <- Hc. apply elem_of_union. by left. }
        apply elem_of_prefix_set in Hp. lia.
      * apply elem_of_dom in Hin as [v Hv]. destruct (Hcn _ _ Hv) as (_ & _ & ? & _). lia.
    + split; [|lia]. unfold announced. simpl. by rewrite (assoc_L (∪)).
  - destruct (Client.running s); simpl; [|by left].
    left. rewrite receive_acks_shape. done.
  - destruct (Client.running s); simpl; [|by left].
    unfold Client.handle_retransmissions.
    destruct (Client.packets_to_retransmit s) as [|[q d] rest] eqn:Eq; [by left|].
    destruct (Z.leb_spec d (Client.next_seq_num s)); [|by left].
    apply Forall_cons in He as [(Hqd & Hqn & Hdue) He].
    simpl in Hnd, Hqd, Hqn, Hdue.
    assert (Hnc : Client.retransmission_counts s !! q = None).
    { destruct (_ !! q) as [v|] eqn:Ev; [|done].
      destruct (Hcn q v Ev) as (_ & _ & _ & Hnq). exfalso. apply Hnq. simpl. left. }
    simpl. case_bool_decide; [by left|].
    destruct (Client.should_drop cfg r); simpl; [by left|].
    right. exists q. split; [done|]. split; [|split; [done|]].
    + unfold announced. intros [Hin|Hin]%elem_of_union.
      * apply (Hd q Hin Hqd).
      * apply elem_of_dom in Hin as [v Hv]. congruence.
    + split; [|lia]. unfold announced. simpl. rewrite dom_insert_L.
      apply set_eq. intros x. rewrite !elem_of_union. tauto.
  - by left.
Qed.

Lemma trace_snoc cfg s evs e :
  client_trace cfg s (evs ++ [e])
  = client_trace cfg s evs ++ (Client.step cfg (Client.run cfg s evs) e).2.
Proof.
  revert s. induction evs as [|e' evs IH]; intros s; simpl.
  - by rewrite app_nil_r.
  - rewrite IH. by rewrite (assoc_L (++)).
Qed.

Lemma filter_all {A} (P : A → Prop) `{∀ x, Decision (P x)} (l : list A) :
  Forall P l → filter P l = l.
Proof.
  induction 1 as [|x l Hx Hl IH]; [done|].
  rewrite filter_cons_True by done. by rewrite IH.
Qed.

Lemma filter_none {A} (P : A → Prop) `{∀ x, Decision (P x)} (l : list A) :
  Forall (λ x, ¬ P x) l → filter P l = [].
Proof.
  induction 1 as [|x l Hx Hl IH]; [done|].
  by rewrite filter_cons_False by done.
Qed.

Lemma packets_with_count_ones (counts : gmap Z Z) (count : Z) :
  (∀ k v, counts !! k = Some v → v = 1) →
  packets_with_count counts count
  = if decide (count = 1) then Z.of_nat (size counts) else 0.
Proof.
  intros Hone. unfold packets_with_count. case_decide as Hc.
  - subst count. rewrite filter_all; [by rewrite length_map_to_list|].
    apply Forall_forall. intros [k v] Hkv%elem_of_map_to_list. simpl. eauto.
  - rewrite filter_none; [done|].
    apply Forall_forall. intros [k v] Hkv%elem_of_map_to_list. simpl.
    intros <-. apply Hc. eauto.
Qed.

Section SenderRuns.
Variable cfg : Client.config.
Variable w : Z.

Lemma flow_run evs : flow cfg w (Client.run cfg (Client.started w) evs).
Proof.
  induction evs as [|e evs IH] using rev_ind.
  - split; simpl; try done; try lia; constructor.
  - rewrite run_snoc. by apply flow_step.
Qed.

Lemma first_sent_run evs : first_sent (Client.run cfg (Client.started w) evs).
Proof.
  induction evs as [|e evs IH] using rev_ind.
  - split; simpl; try done.
  - rewrite run_snoc. by apply first_sent_step.
Qed.

Lemma queued_run evs : queued cfg (Client.run cfg (Client.started w) evs).
Proof.
  induction evs as [|e evs IH] using rev_ind.
  - split; simpl; try done; constructor.
  - rewrite run_snoc. by apply queued_step.
Qed.

Lemma acked_below_run evs x :
  0 ≤ x < Client.base (Client.run cfg (Client.started w) evs) →
  x ∈ Client.acked_packets (Client.run cfg (Client.started w) evs).
Proof.
  revert x. induction evs as [|e evs IH] using rev_ind.
  - simpl. lia.
  - rewrite run_snoc. by apply acked_below_step.
Qed.

(** X1.  In every run of the sender the base stays between 0 and
    [next_seq_num], no number beyond [total_packets] is admitted, and the
    numbers admitted but not yet passed by the base never exceed the
    window size. *)
Theorem sender_window_never_overrun evs :
  let s := Client.run cfg (Client.started w) evs in
  0 ≤ Client.base s ∧ Client.base s ≤ Client.next_seq_num s ∧
  Client.next_seq_num s ≤ Z.max 0 (Client.total_packets cfg) ∧
  Client.next_seq_num s - Client.base s ≤ Z.max 0 (Client.window_size s).
Proof. intros s. unfold s. destruct (flow_run evs) as [? ? ? _ _ _ _]. lia. Qed.

(** X2.  [window_sizes] holds one sample per admitted number; the samples
    never decrease and lie between the initial and the current window
    size. *)
Theorem window_samples_one_per_admission evs :
  let s := Client.run cfg (Client.started w) evs in
  Z.of_nat (length (Client.window_sizes s)) = Client.next_seq_num s ∧
  StronglySorted Z.le (Client.window_sizes s) ∧
  Forall (λ x, w ≤ x ≤ Client.window_size s) (Client.window_sizes s).
Proof. intros s. by destruct (flow_run evs) as [_ _ _ _ ? ? ?]. Qed.

(** X20.  The window size never falls below its initial value and has
    grown by at most one per acknowledged number. *)
Theorem window_grows_once_per_acknowledgment evs :
  let s := Client.run cfg (Client.started w) evs in
  w ≤ Client.window_size s ∧
  Client.window_size s ≤ w + Z.of_nat (size (Client.acked_packets s)).
Proof.
  intros s. destruct (flow_run evs) as [_ _ _ Hg _ _ _]. fold s in Hg.
  split; [done|].
  assert (H : Client.window_size s - w ≤ Z.of_nat (size (Client.acked_packets s))); [|lia].
  unfold s. clear. induction evs as [|e evs IH] using rev_ind.
  - simpl. lia.
  - rewrite run_snoc. by apply growth_step.
Qed.

(** X3.  [sent_packets] and [dropped_packets] split the admitted numbers
    [0 .. next_seq_num - 1] into two disjoint sets, counted by [total_sent]
    and [total_dropped]. *)
Theorem first_transmissions_partition evs :
  let s := Client.run cfg (Client.started w) evs in
  Client.sent_packets s ∪ Client.dropped_packets s = prefix_set (Client.next_seq_num s) ∧
  Client.sent_packets s ## Client.dropped_packets s ∧
  Client.total_sent s = Z.of_nat (size (Client.sent_packets s)) ∧
  Client.total_dropped s = Z.of_nat (size (Client.dropped_packets s)) ∧
  Client.total_sent s + Client.total_dropped s = Client.next_seq_num s.
Proof.
  intros s. destruct (first_sent_run evs) as [Hn Hc Hd Hs Hdr]. fold s in Hn, Hc, Hd, Hs, Hdr.
  split; [done|]. split; [done|]. split; [done|]. split; [done|].
  rewrite Hs, Hdr, <- Nat2Z.inj_add, <- size_union by done.
  rewrite Hc. by apply size_prefix_set.
Qed.

(** X4.  The retransmission queue is ordered by due position and holds
    each number at most once; every queued number was dropped and has not
    been retransmitted.  The head is therefore due no later than any other
    entry: looking at the head only misses nothing. *)
Theorem retransmission_queue_ordered evs :
  let s := Client.run cfg (Client.started w) evs in
  StronglySorted Z.le (Client.packets_to_retransmit s).*2 ∧
  NoDup (Client.packets_to_retransmit s).*1 ∧
  Forall (λ e, e.1 ∈ Client.dropped_packets s ∧
               Client.retransmission_counts s !! e.1 = None ∧
               e.2 ≤ Client.next_seq_num s + Client.retransmit_after cfg)
         (Client.packets_to_retransmit s) ∧
  match Client.packets_to_retransmit s with
  | [] => True
  | head :: rest => Forall (λ e, head.2 ≤ e.2) rest
  end.
Proof.
  intros s. destruct (queued_run evs) as [_ He Hn Hs Hc _]. fold s in He, Hn, Hs, Hc.
  split; [done|]. split; [done|]. split.
  - apply Forall_forall. intros e Hin. rewrite Forall_forall in He.
    destruct (He e Hin) as (? & ? & ?). split; [done|]. split; [|done].
    destruct (_ !! e.1) as [v|] eqn:Ev; [|done].
    destruct (Hc _ _ Ev) as (_ & _ & _ & Hnq). exfalso. apply Hnq.
    apply list_elem_of_fmap. by exists e.
  - destruct (Client.packets_to_retransmit s) as [|h rest]; [done|].
    simpl in Hs. apply StronglySorted_inv in Hs as [_ Hh].
    rewrite Forall_forall in Hh. apply Forall_forall. intros e Hin.
    apply Hh. apply list_elem_of_fmap. by exists e.
Qed.

(** X5.  No number is retransmitted successfully more than once: every
    retransmission count is 1, so the table of the final statistics has
    [total_retransmitted] packets in its first row and none in the rows for
    2, 3 and 4; and [total_retransmitted] never exceeds [total_dropped]. *)
Theorem at_most_one_retransmission_per_packet evs :
  let s := Client.run cfg (Client.started w) evs in
  map_Forall (λ _ v, v = 1) (Client.retransmission_counts s) ∧
  retransmission_table (Client.retransmission_counts s)
  = [(1, Client.total_retransmitted s); (2, 0); (3, 0); (4, 0)] ∧
  Client.total_retransmitted s ≤ Client.total_dropped s.
Proof.
  intros s. destruct (queued_run evs) as [_ _ _ _ Hc Ht]. fold s in Hc, Ht.
  destruct (first_sent_run evs) as [_ _ _ _ Hdr]. fold s in Hdr.
  assert (Hone : ∀ k v, Client.retransmission_counts s !! k = Some v → v = 1).
  { intros k v Hk. by destruct (Hc k v Hk). }
  split; [done|]. split.
  - unfold retransmission_table, Server.range. simpl.
    rewrite !packets_with_count_ones by done. simpl. by rewrite Ht.
  - rewrite Ht, Hdr, <- size_dom. apply inj_le, subseteq_size.
    intros k [v Hk]%elem_of_dom. by destruct (Hc k v Hk) as (_ & ? & _).
Qed.

(** X6.  Whatever acknowledgments arrive, every number below the base is
    acknowledged. *)
Theorem numbers_below_base_are_acknowledged evs :
  let s := Client.run cfg (Client.started w) evs in
  0 ≤ Client.base s ∧ (prefix_set (Client.base s) ⊆ Client.acked_packets s).
Proof.
  intros s. split.
  - by destruct (flow_run evs) as [[? _] _ _ _ _ _ _].
  - intros x Hx%elem_of_prefix_set. by apply acked_below_run.
Qed.

(** X7.  The sender writes no sequence number to the socket twice.  The
    numbers written are those of [sent_packets] and the keys of
    [retransmission_counts], there are [total_sent + total_retransmitted]
    of them, and each is an admitted number below [total_packets]. *)
Theorem no_number_is_announced_twice evs :
  let s := Client.run cfg (Client.started w) evs in
  let sent := Wire.seq_num <$> client_trace cfg (Client.started w) evs in
  NoDup sent ∧
  list_to_set sent = announced s ∧
  Z.of_nat (length sent) = Client.total_sent s + Client.total_retransmitted s ∧
  Forall (λ q, 0 ≤ q < Client.next_seq_num s ∧ q < Client.total_packets cfg) sent.
Proof.
  intros s sent.
  assert (H : NoDup sent ∧ list_to_set sent = announced s ∧
              Z.of_nat (length sent) = Client.total_sent s + Client.total_retransmitted s).
  { unfold s, sent. clear s sent. induction evs as [|e evs IH] using rev_ind.
    - split; [constructor|]. split; [|done]. unfold announced. simpl.
      rewrite dom_empty_L. by rewrite (left_id_L ∅ (∪)).
    - rewrite run_snoc, trace_snoc, fmap_app.
      destruct IH as (Hnd & Hset & Hlen).
      destruct (step_announced cfg (Client.run cfg (Client.started w) evs) e
                  (first_sent_run evs) (queued_run evs))
        as [(-> & -> & ->)|(q & -> & Hq & Hqn & -> & ->)].
      + simpl. by rewrite app_nil_r.
      + simpl. split; [|split].
        * apply NoDup_app. split; [done|]. split; [|apply NoDup_singleton].
          intros x Hx ->%list_elem_of_singleton. apply Hq. rewrite <- Hset.
          by apply elem_of_list_to_set.
        * rewrite list_to_set_app_L, Hset. simpl.
          apply set_eq. intros x. rewrite !elem_of_union, elem_of_empty. tauto.
        * rewrite length_app. simpl. lia. }
  destruct H as (Hnd & Hset & Hlen). split; [done|]. split; [done|]. split; [done|].
  destruct (first_sent_run evs) as [_ Hc _ _ _]. fold s in Hc.
  destruct (queued_run evs) as [_ _ _ _ Hcn _]. fold s in Hcn.
  destruct (flow_run evs) as [_ Htot _ _ _ _ _]. fold s in Htot.
  apply Forall_forall. intros q Hq.
  assert (Hin : q ∈ announced s) by (rewrite <- Hset; by apply elem_of_list_to_set).
  assert (0 ≤ q < Client.next_seq_num s); [|lia].
  unfold announced in Hin. apply elem_of_union in Hin as [Hin|Hin].
  - apply elem_of_prefix_set. rewrite <- Hc. apply elem_of_union. by left.
  - apply elem_of_dom in Hin as [v Hv]. by destruct (Hcn _ _ Hv) as (_ & _ & ? & _).
Qed.

End SenderRuns.

Lemma stopped_step cfg s e :
  Client.running s = false →
  (Client.step cfg s e).2 = [] ∧
  ∃ p, (Client.step cfg s e).1 = Client.set_pc p s.
Proof.
  intros Hr. destruct s; simpl in Hr; subst.
  destruct e as [r|m|r|]; simpl; unfold Client.start_step; simpl.
  - destruct pc; simpl; rewrite ?andb_false_r; split; try done; by eexists.
  - split; [done|]. by eexists.
  - split; [done|]. by eexists.
  - split; [done|]. by eexists.
Qed.

(** X8.  Once [running] is cleared no thread writes to the socket again
    and nothing but the control location of the main thread changes. *)
Theorem stopped_sender_is_silent cfg s evs :
  Client.running s = false →
  client_trace cfg s evs = [] ∧
  Client.run cfg s evs = Client.set_pc (Client.pc (Client.run cfg s evs)) s.
Proof.
  revert s. induction evs as [|e evs IH]; intros s Hr; simpl.
  - split; [done|]. by destruct s.
  - destruct (stopped_step cfg s e Hr) as [-> [p Hp]]. simpl.
    unfold Client.run in *. simpl. rewrite Hp.
    destruct (IH (Client.set_pc p s)) as [-> Hrun]; [by destruct s|].
    split; [done|]. rewrite Hrun at 1. by destruct s.
Qed.

Lemma stopped_sender_witness :
  let s := Client.run drop_cfg (Client.started 4) [Client.Main (1 # 4); Client.Stop] in
  let evs := [Client.Retransmit (3 # 4); Client.Ack (Wire.ack_of_server 0);
              Client.Main (3 # 4)] in
  Client.running s = false ∧ Client.packets_to_retransmit s = [(0, 1)] ∧
  client_trace drop_cfg s evs = [] ∧
  Client.run drop_cfg s evs = Client.set_pc (Client.pc (Client.run drop_cfg s evs)) s.
Proof.
  split; [reflexivity|]. split; [vm_compute; reflexivity|].
  apply (stopped_sender_is_silent drop_cfg). reflexivity.
Defined.

(** ** More about the receivers *)

Lemma sum_values_insert_fresh (m : gmap Z Z) k v :
  m !! k = None → sum_values (<[k := v]> m) = v + sum_values m.
Proof.
  intros Hk. unfold sum_values. apply (map_fold_insert_L (λ _ v acc, v + acc)); [|done].
  intros. lia.
Qed.

Lemma sum_values_bump (m : gmap Z Z) k :
  sum_values (<[k := default 0 (m !! k) + 1]> m) = sum_values m + 1.
Proof.
  destruct (m !! k) as [v|] eqn:Hk; simpl.
  - rewrite <- (insert_delete_eq m k (v + 1)).
    rewrite sum_values_insert_fresh by apply lookup_delete_eq.
    rewrite <- (insert_id m k v) at 2 by done.
    rewrite <- (insert_delete_eq m k v).
    rewrite sum_values_insert_fresh by apply lookup_delete_eq. lia.
  - rewrite sum_values_insert_fresh by done. lia.
Qed.

Lemma listed_nil : listed (∅, []).
Proof. split; simpl; [apply NoDup_nil_2|done]. Qed.

Lemma note_missing_spec received l acc :
  let r := foldl (Server.note_missing received) acc l in
  (∀ x, x ∈ r.1 ↔ x ∈ acc.1 ∨ (x ∈ l ∧ x ∉ received)) ∧
  (listed acc → listed r).
Proof.
  revert acc. induction l as [|i l IH]; intros acc; simpl.
  - split; [|done]. intros x. rewrite elem_of_nil. tauto.
  - destruct (IH (Server.note_missing received acc i)) as [Hin Hl].
    split.
    + intros x. rewrite Hin, elem_of_cons. unfold Server.note_missing.
      destruct (bool_decide (i ∈ received)) eqn:Er; simpl.
      * apply bool_decide_eq_true_1 in Er. split; [tauto|].
        intros [?|[[->|?] ?]]; tauto.
      * apply bool_decide_eq_false_1 in Er.
        destruct (bool_decide (i ∈ acc.1)) eqn:Em; simpl.
        -- apply bool_decide_eq_true_1 in Em. split; [tauto|].
           intros [?|[[->|?] ?]]; tauto.
        -- rewrite elem_of_union, elem_of_singleton. split.
           ++ intros [[->|?]|[? ?]]; tauto.
           ++ intros [?|[[->|?] ?]]; tauto.
    + intros Hacc. apply Hl. unfold Server.note_missing.
      destruct (bool_decide (i ∈ received)); simpl; [done|].
      destruct (bool_decide (i ∈ acc.1)) eqn:Em; simpl; [done|].
      apply bool_decide_eq_false_1 in Em. destruct Hacc as [Hnd Hset].
      split; simpl.
      * apply NoDup_app. split; [done|]. split; [|apply NoDup_singleton].
        intros x Hx ->%list_elem_of_singleton. apply Em. rewrite <- Hset.
        by apply elem_of_list_to_set.
      * rewrite list_to_set_app_L, Hset. simpl.
        apply set_eq. intros x. rewrite !elem_of_union, elem_of_empty. tauto.
Qed.

(** On numbers that are not yet in the gap set the two variants of the
    gap loop coincide. *)
Lemma note_missing_agree received l acc :
  NoDup l → (∀ i, i ∈ l → i ∉ acc.1) →
  foldl (Server.note_missing received) acc l
  = foldl (ServerFixed.note_missing received) acc l.
Proof.
  revert acc. induction l as [|i l IH]; intros acc Hnd Hacc; simpl; [done|].
  apply NoDup_cons in Hnd as [Hi Hnd].
  assert (Hstep : Server.note_missing received acc i
                  = ServerFixed.note_missing received acc i).
  { unfold Server.note_missing, ServerFixed.note_missing.
    rewrite (bool_decide_eq_false_2 (i ∈ acc.1)); [by rewrite andb_true_r|].
    apply Hacc. left. }
  rewrite Hstep. apply IH; [done|]. intros j Hj.
  unfold ServerFixed.note_missing. destruct (negb _); simpl.
  - rewrite elem_of_union, elem_of_singleton. intros [->|?]; [done|].
    by apply (Hacc j); [right|].
  - apply Hacc. by right.
Qed.

Lemma elem_of_range lo hi x : x ∈ Server.range lo hi ↔ lo ≤ x < hi.
Proof. unfold Server.range. rewrite elem_of_seqZ. lia. Qed.

Lemma gap_tracked_process s q :
  gap_tracked s → gap_tracked (Server.process_sequence_number s q).
Proof.
  intros Hinv. pose proof Hinv as [Hl Ht Hs Hc Hm Hd Hr].
  unfold Server.process_sequence_number.
  case_bool_decide as Hq; [by split|].
  destruct (Z.ltb_spec (Server.highest_seq_received s) q) as [Hlt|Hge].
  - destruct (note_missing_spec ({[q]} ∪ Server.received_packets s)
                (Server.range (Server.highest_seq_received s + 1) q)
                (Server.missing_packets s, Server.seq_nums_dropped s))
      as [Hin Hlist]. simpl in Hin.
    split; simpl; try lia.
    + intros x [->%elem_of_singleton|Hx]%elem_of_union; [lia|].
      specialize (Ht x Hx). lia.
    + right. apply elem_of_add.
    + intros i Hi. destruct (decide (i = q)) as [->|Hne]; [left; apply elem_of_add|].
      destruct (decide (i ≤ Server.highest_seq_received s)) as [Hle|Hgt].
      * destruct (Hc i) as [?|?]; [lia|left|right].
        -- apply elem_of_union. by right.
        -- apply Hin. by left.
      * destruct (decide (i ∈ {[q]} ∪ Server.received_packets s)); [by left|].
        right. apply Hin. right. split; [|done]. apply elem_of_range. lia.
    + intros i [Hi|[Hi _]]%Hin.
      * specialize (Hm i Hi). lia.
      * apply elem_of_range in Hi. lia.
    + destruct (foldl _ _ _) as [M D] eqn:E. simpl. by apply Hlist.
    + destruct Hr as [Hnd Hset]. simpl in Hnd, Hset. split; simpl.
      * apply NoDup_app. split; [done|]. split; [|apply NoDup_singleton].
        intros x Hx ->%list_elem_of_singleton. apply Hq. rewrite <- Hset.
        by apply elem_of_list_to_set.
      * rewrite list_to_set_app_L, Hset. simpl.
        apply set_eq. intros x. rewrite !elem_of_union, elem_of_empty. tauto.
  - split; simpl; try done.
    + intros x [->%elem_of_singleton|Hx]%elem_of_union; [lia|]. by apply Ht.
    + destruct Hs as [Hs|Hs]; [lia|]. right. apply elem_of_union. by right.
    + intros i Hi. destruct (Hc i Hi) as [?|?]; [left|by right].
      apply elem_of_union. by right.
    + destruct Hr as [Hnd Hset]. simpl in Hnd, Hset. split; simpl.
      * apply NoDup_app. split; [done|]. split; [|apply NoDup_singleton].
        intros x Hx ->%list_elem_of_singleton. apply Hq. rewrite <- Hset.
        by apply elem_of_list_to_set.
      * rewrite list_to_set_app_L, Hset. simpl.
        apply set_eq. intros x. rewrite !elem_of_union, elem_of_empty. tauto.
Qed.

Lemma gap_tracked_handle_client s m :
  gap_tracked s → gap_tracked (Server.handle_client s m).1.
Proof.
  intros Hs. apply (gap_tracked_process s (Wire.seq_num m)) in Hs.
  unfold Server.handle_client. destruct (Server.measure _); by destruct Hs.
Qed.

Lemma gap_tracked_run ms : gap_tracked (Server.run Server.init ms).
Proof.
  induction ms as [|m ms IH] using rev_ind.
  - split; simpl; try done; try lia; try (by left); apply listed_nil.
  - rewrite server_run_snoc. by apply gap_tracked_handle_client.
Qed.

Lemma add_present (x : Z) (X : gset Z) : x ∈ X → {[x]} ∪ X = X.
Proof.
  intros Hx. apply set_eq. intros y. rewrite elem_of_union, elem_of_singleton.
  split; [by intros [->|?]|tauto].
Qed.

Lemma agree_process s f q :
  gap_tracked s → agree s f →
  agree (Server.process_sequence_number s q) (ServerFixed.process_sequence_number f q).
Proof.
  intros [Hl Ht Hs Hc Hm Hd Hr] [Er Em Eh Ed Ew Ec].
  unfold Server.process_sequence_number, ServerFixed.process_sequence_number.
  rewrite Er, Em, Eh, Ed.
  case_bool_decide as Hq.
  - pose proof (Ht q Hq) as Hle.
    rewrite (proj2 (Z.ltb_ge _ _) Hle). rewrite add_present by done.
    split; simpl; try done. lia.
  - destruct (Z.ltb_spec (Server.highest_seq_received s) q) as [Hlt|Hge].
    + rewrite <- (note_missing_agree ({[q]} ∪ Server.received_packets s)
                   (Server.range (Server.highest_seq_received s + 1) q)
                   (Server.missing_packets s, Server.seq_nums_dropped s)).
      * split; simpl; try done. lia.
      * apply NoDup_seqZ.
      * intros i Hi%elem_of_range Hin. simpl in Hin. specialize (Hm i Hin). lia.
    + split; simpl; try done. lia.
Qed.

Lemma agree_handle_client s f m :
  gap_tracked s → agree s f →
  agree (Server.handle_client s m).1 (ServerFixed.handle_client f m).1.
Proof.
  intros Hs Ha. pose proof (agree_process s f (Wire.seq_num m) Hs Ha) as [Er Em Eh Ed Ew Ec].
  unfold Server.handle_client, ServerFixed.handle_client.
  set (s1 := Server.process_sequence_number s (Wire.seq_num m)) in *.
  set (f1 := ServerFixed.process_sequence_number f (Wire.seq_num m)) in *.
  clearbody s1 f1.
  destruct (Server.measure _), (ServerFixed.measure _); split; simpl; congruence.
Qed.

Lemma agree_run ms : agree (Server.run Server.init ms) (ServerFixed.run ServerFixed.init ms).
Proof.
  induction ms as [|m ms IH] using rev_ind; [by split|].
  rewrite server_run_snoc, fixed_run_snoc.
  apply agree_handle_client; [apply gap_tracked_run|done].
Qed.

(** X12.  On the same announcements the two receiver variants hold the
    same received set, gap set, highest number, dropped list and window
    samples; [total_packets_received] of [server_fixed.py] is
    [total_packets_expected] of [server.py]. *)
Theorem receiver_variants_track_the_same_gaps (ms : list Wire.announcement) :
  let s := Server.run Server.init ms in
  let f := ServerFixed.run ServerFixed.init ms in
  ServerFixed.received_packets f = Server.received_packets s ∧
  ServerFixed.missing_packets f = Server.missing_packets s ∧
  ServerFixed.highest_seq_num f = Server.highest_seq_received s ∧
  ServerFixed.seq_nums_dropped f = Server.seq_nums_dropped s ∧
  ServerFixed.window_sizes f = Server.window_sizes s ∧
  ServerFixed.total_packets_received f = Server.total_packets_expected s.
Proof. intros s f. by destruct (agree_run ms). Qed.

(** What one announcement does to the bookkeeping of [server.py]. *)
Lemma process_effect s q :
  let s' := Server.process_sequence_number s q in
  Server.received_packets s' = {[q]} ∪ Server.received_packets s ∧
  Server.total_packets_expected s' = Server.total_packets_expected s + 1 ∧
  Server.total_packets_received s' + sum_values (Server.retransmission_stats s')
  = Server.total_packets_received s + sum_values (Server.retransmission_stats s) + 1 ∧
  Server.window_sizes s' = Server.window_sizes s.
Proof.
  unfold Server.process_sequence_number. case_bool_decide as Hq; simpl.
  - rewrite add_present by done. rewrite sum_values_bump. repeat split; lia.
  - repeat split; lia.
Qed.

Lemma handle_client_effect s m :
  let s' := (Server.handle_client s m).1 in
  Server.received_packets s' = {[Wire.seq_num m]} ∪ Server.received_packets s ∧
  Server.total_packets_expected s' = Server.total_packets_expected s + 1 ∧
  Server.total_packets_received s' + sum_values (Server.retransmission_stats s')
  = Server.total_packets_received s + sum_values (Server.retransmission_stats s) + 1 ∧
  Server.window_sizes s' = Server.window_sizes s ++ [Wire.window_size m].
Proof.
  destruct (process_effect s (Wire.seq_num m)) as (Hr & He & Ha & Hw).
  unfold Server.handle_client. destruct (Server.measure _); simpl; by rewrite Hw.
Qed.

Lemma server_history ms :
  let s := Server.run Server.init ms in
  Server.total_packets_expected s = Z.of_nat (length ms) ∧
  Server.total_packets_expected s
  = Server.total_packets_received s + sum_values (Server.retransmission_stats s) ∧
  Server.received_packets s = list_to_set (Wire.seq_num <$> ms) ∧
  Server.window_sizes s = Wire.window_size <$> ms.
Proof.
  induction ms as [|m ms IH] using rev_ind; [done|].
  rewrite server_run_snoc. simpl in IH. destruct IH as (He & Ha & Hr & Hw).
  destruct (handle_client_effect (Server.run Server.init ms) m) as (Hr' & He' & Ha' & Hw').
  simpl. rewrite Hr', He', Hw', Hr, Hw, He, !fmap_app, length_app, list_to_set_app_L. simpl.
  split; [lia|]. split; [lia|]. split; [|done].
  apply set_eq. intros x. rewrite !elem_of_union, elem_of_empty. tauto.
Qed.

(** X13.  In [server.py], [total_packets_expected] is the number of
    announcements processed and equals the received count plus the sum of
    the retransmission statistics; [received_packets] is the set of the
    numbers announced and [window_sizes] the list of the announced window
    sizes. *)
Theorem receiver_counts_every_announcement (ms : list Wire.announcement) :
  let s := Server.run Server.init ms in
  Server.total_packets_expected s = Z.of_nat (length ms) ∧
  Server.total_packets_expected s
  = Server.total_packets_received s + sum_values (Server.retransmission_stats s) ∧
  Server.received_packets s = list_to_set (Wire.seq_num <$> ms) ∧
  Server.window_sizes s = Wire.window_size <$> ms.
Proof. apply server_history. Qed.

(** X15.  In [server.py] no received number exceeds
    [highest_seq_received], which is -1 or a received number; every number
    from 0 to the highest is received or in the gap set; and every number of
    the gap set lies between 0 and the highest. *)
Theorem gap_detection_is_complete (ms : list Wire.announcement) :
  let s := Server.run Server.init ms in
  set_Forall (λ x, x ≤ Server.highest_seq_received s) (Server.received_packets s) ∧
  (Server.highest_seq_received s = -1
   ∨ Server.highest_seq_received s ∈ Server.received_packets s) ∧
  Forall (λ i, i ∈ Server.received_packets s ∨ i ∈ Server.missing_packets s)
         (Server.range 0 (Server.highest_seq_received s + 1)) ∧
  set_Forall (λ i, 0 ≤ i < Server.highest_seq_received s) (Server.missing_packets s).
Proof.
  intros s. destruct (gap_tracked_run ms) as [_ Ht Hs Hc Hm _ _].
  fold s in Ht, Hs, Hc, Hm.
  split; [exact Ht|]. split; [exact Hs|]. split; [|exact Hm].
  apply Forall_forall. intros i Hi%elem_of_range. apply Hc. lia.
Qed.

(** X16.  In [server.py], [seq_nums_dropped] lists the gap set and
    [seq_nums_received] the received set, each number once. *)
Theorem receiver_lists_record_the_sets (ms : list Wire.announcement) :
  let s := Server.run Server.init ms in
  NoDup (Server.seq_nums_dropped s) ∧
  list_to_set (Server.seq_nums_dropped s) = Server.missing_packets s ∧
  length (Server.seq_nums_dropped s) = size (Server.missing_packets s) ∧
  NoDup (Server.seq_nums_received s) ∧
  list_to_set (Server.seq_nums_received s) = Server.received_packets s ∧
  Z.of_nat (length (Server.seq_nums_received s)) = Server.total_packets_received s.
Proof.
  intros s. destruct (gap_tracked_run ms) as [_ _ _ _ _ [Hd Hds] [Hr Hrs]].
  fold s in Hd, Hds, Hr, Hrs. simpl in Hd, Hds, Hr, Hrs.
  destruct (counted_run ms) as [Hc _ _ _]. fold s in Hc.
  split; [done|]. split; [done|]. split; [|split; [done|split; [done|]]].
  - rewrite <- Hds. symmetry. by apply size_list_to_set.
  - rewrite Hc, <- Hrs. f_equal. symmetry. by apply size_list_to_set.
Qed.

Lemma fixed_history ms :
  let f := ServerFixed.run ServerFixed.init ms in
  ServerFixed.total_packets_received f = Z.of_nat (length ms) ∧
  ServerFixed.seq_nums_received f = Wire.seq_num <$> ms.
Proof.
  induction ms as [|m ms IH] using rev_ind; [done|].
  rewrite fixed_run_snoc. simpl in IH. destruct IH as [Hn Hl].
  unfold ServerFixed.handle_client.
  destruct (ServerFixed.measure _); simpl; rewrite Hn, Hl, fmap_app, length_app;
    simpl; split; (lia || done).
Qed.

(** X14.  In [server_fixed.py], [total_packets_received] counts every
    announcement, duplicates included, and [seq_nums_received] is the list
    of the numbers announced, in order. *)
Theorem fixed_receiver_counts_every_announcement (ms : list Wire.announcement) :
  let f := ServerFixed.run ServerFixed.init ms in
  ServerFixed.total_packets_received f = Z.of_nat (length ms) ∧
  ServerFixed.seq_nums_received f = Wire.seq_num <$> ms ∧
  ServerFixed.received_packets f = list_to_set (Wire.seq_num <$> ms) ∧
  ServerFixed.window_sizes f = Wire.window_size <$> ms.
Proof.
  intros f. unfold f. destruct (fixed_history ms) as [Hn Hl].
  destruct (agree_run ms) as [Hr _ _ _ Hw _].
  destruct (server_history ms) as (_ & _ & Hr' & Hw').
  split; [done|]. split; [done|]. split; congruence.
Qed.

Lemma in_order_run ms :
  Wire.seq_num <$> ms = seqZ 0 (Z.of_nat (length ms)) →
  let s := Server.run Server.init ms in
  Server.missing_packets s = ∅ ∧
  Server.highest_seq_received s = Z.of_nat (length ms) - 1 ∧
  Server.total_packets_received s = Z.of_nat (length ms).
Proof.
  induction ms as [|m ms IH] using rev_ind; intros Hms; [done|].
  rewrite fmap_app, length_app in Hms. simpl in Hms.
  rewrite Nat2Z.inj_add in Hms. rewrite seqZ_snoc in Hms by lia.
  apply app_inj_2 in Hms as [Hms Hm]; [|done]. simpl in Hm. injection Hm as Hm.
  destruct (IH Hms) as (Hmiss & Hhigh & Hrec).
  destruct (server_history ms) as (_ & _ & Hset & _).
  simpl in Hset. rewrite Hms in Hset.
  rewrite server_run_snoc, length_app. simpl.
  set (s := Server.run Server.init ms) in *.
  assert (Hq : Wire.seq_num m ∉ Server.received_packets s).
  { rewrite Hset. rewrite elem_of_list_to_set, elem_of_seqZ. lia. }
  unfold Server.handle_client.
  assert (Hgoal : let s1 := Server.process_sequence_number s (Wire.seq_num m) in
                  Server.missing_packets s1 = ∅ ∧
                  Server.highest_seq_received s1 = Z.of_nat (length ms + 1) - 1 ∧
                  Server.total_packets_received s1 = Z.of_nat (length ms + 1)).
  { unfold Server.process_sequence_number.
    rewrite bool_decide_eq_false_2 by done. simpl.
    rewrite Hhigh. replace (Wire.seq_num m) with (Z.of_nat (length ms)) by lia.
    rewrite (proj2 (Z.ltb_lt _ _)) by lia.
    unfold Server.range. rewrite seqZ_nil by lia. simpl.
    split; [done|]. split; lia. }
  simpl in Hgoal. by destruct (Server.measure _).
Qed.

(** X17.  Announcements 0, 1, ..., n-1 in this order leave the gap set
    empty and the goodput at n/n in both receivers. *)
Theorem in_order_stream_has_no_gaps (ms : list Wire.announcement) :
  ms ≠ [] →
  Wire.seq_num <$> ms = seqZ 0 (Z.of_nat (length ms)) →
  let s := Server.run Server.init ms in
  let f := ServerFixed.run ServerFixed.init ms in
  Server.missing_packets s = ∅ ∧ ServerFixed.missing_packets f = ∅ ∧
  Server.goodput s = Some (ratio (Z.of_nat (length ms)) (Z.of_nat (length ms))) ∧
  ServerFixed.goodput f = Some (ratio (Z.of_nat (length ms)) (Z.of_nat (length ms))).
Proof.
  intros Hne Hms s f.
  assert (Hlen : 0 < Z.of_nat (length ms)) by (destruct ms; [done|simpl; lia]).
  destruct (in_order_run ms Hms) as (Hmiss & Hhigh & Hrec). fold s in Hmiss, Hhigh, Hrec.
  destruct (agree_run ms) as [Hr Hm Hh _ _ _].
  fold s f in Hr, Hm, Hh.
  destruct (server_history ms) as (He & _ & _ & _). fold s in He.
  destruct (counted_run ms) as [Hc _ _ _]. fold s in Hc.
  assert (Hnum : forallb numbered ms = true).
  { apply forallb_forall. intros m Hin. apply Z.leb_le.
    assert (Hq : Wire.seq_num m ∈ Wire.seq_num <$> ms).
    { apply list_elem_of_fmap. exists m. split; [done|]. by apply list_elem_of_In. }
    rewrite Hms in Hq. apply elem_of_seqZ in Hq. lia. }
  destruct (fixed_counted_run ms Hnum) as [_ Hfe _ _]. fold f in Hfe.
  split; [done|]. split; [congruence|]. split.
  - unfold Server.goodput. rewrite <- Hc, Hrec, He. by apply py_truediv_nonzero; lia.
  - unfold ServerFixed.goodput. rewrite Hr, <- Hc, Hrec, Hfe, Hh, Hhigh.
    replace (Z.of_nat (length ms) - 1 + 1) with (Z.of_nat (length ms)) by lia.
    by apply py_truediv_nonzero; lia.
Qed.

Lemma process_grows s q :
  let s' := Server.process_sequence_number s q in
  (Server.received_packets s ⊆ Server.received_packets s') ∧
  Server.highest_seq_received s ≤ Server.highest_seq_received s' ∧
  Server.total_packets_received s ≤ Server.total_packets_received s' ∧
  Server.total_packets_expected s < Server.total_packets_expected s'.
Proof.
  unfold Server.process_sequence_number. case_bool_decide; simpl.
  - split; [done|]. lia.
  - split; [apply union_subseteq_r|]. destruct (Z.ltb_spec (Server.highest_seq_received s) q); lia.
Qed.

(** X18.  From any state of [server.py], processing announcements never
    removes a number from the received set or from the gap set, never
    lowers the highest number or the received count, and adds exactly the
    number of announcements to [total_packets_expected]. *)
Theorem receiver_never_forgets (s : Server.state) (ms : list Wire.announcement) :
  let s' := Server.run s ms in
  (Server.received_packets s ⊆ Server.received_packets s') ∧
  (Server.missing_packets s ⊆ Server.missing_packets s') ∧
  Server.highest_seq_received s ≤ Server.highest_seq_received s' ∧
  Server.total_packets_received s ≤ Server.total_packets_received s' ∧
  Server.total_packets_expected s' = Server.total_packets_expected s + Z.of_nat (length ms).
Proof.
  induction ms as [|m ms IH] using rev_ind; simpl.
  - split; [done|]. split; [done|]. lia.
  - rewrite server_run_snoc, length_app. simpl in *.
    destruct IH as (Hr & Hm & Hh & Hn & He).
    set (s1 := Server.run s ms) in *.
    destruct (process_grows s1 (Wire.seq_num m)) as (Hr' & Hh' & Hn' & _).
    destruct (handle_client_effect s1 m) as (_ & He' & _ & _).
    pose proof (missing_mono_step s1 m) as Hm'.
    assert (Hsame : let s2 := (Server.handle_client s1 m).1 in
              Server.received_packets s2
              = Server.received_packets (Server.process_sequence_number s1 (Wire.seq_num m)) ∧
              Server.highest_seq_received s2
              = Server.highest_seq_received (Server.process_sequence_number s1 (Wire.seq_num m)) ∧
              Server.total_packets_received s2
              = Server.total_packets_received (Server.process_sequence_number s1 (Wire.seq_num m))).
    { unfold Server.handle_client. by destruct (Server.measure _). }
    simpl in Hsame. destruct Hsame as (-> & -> & ->). simpl in He'. rewrite He'.
    split; [by etrans|]. split; [by etrans|]. lia.
Qed.

(** X19.  With unsigned sequence numbers [server_fixed.py] answers every
    announcement: the periodic goodput never divides by zero. *)
Theorem fixed_receiver_acknowledges_every_announcement
  (ms : list Wire.announcement) (m : Wire.announcement) :
  forallb numbered ms = true → numbered m = true →
  (ServerFixed.handle_client (ServerFixed.run ServerFixed.init ms) m).2
  = Some (Wire.ack_of_server_fixed (Wire.seq_num m)).
Proof.
  intros Hms Hm. apply Z.leb_le in Hm.
  pose proof (fixed_counted_run ms Hms) as Hf.
  apply (fixed_counted_process _ (Wire.seq_num m) Hm) in Hf.
  unfold ServerFixed.handle_client.
  set (f1 := ServerFixed.process_sequence_number _ _) in *.
  assert (Hpos : 0 < ServerFixed.total_packets_expected f1).
  { destruct Hf as [Hr He Hs _]. destruct Hs as [[? Hz]|[Hin _]].
    - unfold f1, ServerFixed.process_sequence_number in Hz. simpl in Hz.
      destruct (fixed_counted_run ms Hms) as [_ _ [[_ ?]|[_ ?]] _]; lia.
    - specialize (Hr _ Hin). lia. }
  clearbody f1. unfold ServerFixed.measure, ServerFixed.goodput. simpl.
  destruct (ServerFixed.measurement_due _); [|done].
  by rewrite py_truediv_nonzero by lia.
Qed.

Lemma in_order_witness :
  let ms := announce <$> [0; 1; 2] in
  ms ≠ [] ∧ Wire.seq_num <$> ms = seqZ 0 (Z.of_nat (length ms)) ∧
  Server.missing_packets (Server.run Server.init ms) = ∅ ∧
  ServerFixed.missing_packets (ServerFixed.run ServerFixed.init ms) = ∅ ∧
  Server.goodput (Server.run Server.init ms) = Some (ratio 3 3) ∧
  ServerFixed.goodput (ServerFixed.run ServerFixed.init ms) = Some (ratio 3 3).
Proof.
  split; [discriminate|]. split; [reflexivity|].
  refine (in_order_stream_has_no_gaps (announce <$> [0; 1; 2]) _ _);
    [discriminate|reflexivity].
Defined.

Lemma fixed_acknowledgment_witness :
  forallb numbered gap_prefix = true ∧ numbered (announce 2) = true ∧
  (ServerFixed.handle_client (ServerFixed.run ServerFixed.init gap_prefix)
     (announce 2)).2
  = Some (Wire.ack_of_server_fixed 2).
Proof.
  split; [reflexivity|]. split; [reflexivity|].
  apply (fixed_receiver_acknowledges_every_announcement gap_prefix (announce 2));
    reflexivity.
Defined.

(** ** More about sender and receiver together *)

Lemma announced_bound cfg c x :
  first_sent c → queued cfg c → x ∈ announced c → 0 ≤ x < Client.next_seq_num c.
Proof.
  intros [_ Hc _ _ _] [_ _ _ _ Hcn _] [Hin|Hin]%elem_of_union.
  - apply elem_of_prefix_set. rewrite <- Hc. apply elem_of_union. by left.
  - apply elem_of_dom in Hin as [v Hv]. by destruct (Hcn _ _ Hv) as (_ & _ & ? & _).
Qed.

Lemma ratio_self n : 0 < n → (ratio n n == 1)%Q.
Proof.
  intros Hn. unfold ratio. apply Qmult_inv_r.
  unfold Qeq, inject_Z. simpl. lia.
Qed.

(** A step of the main thread or of the retransmission thread leaves
    [base] and [acked_packets] alone. *)
Lemma sending_keeps_acks cfg c e :
  (∀ m, e ≠ Client.Ack m) →
  Client.base (Client.step cfg c e).1 = Client.base c ∧
  Client.acked_packets (Client.step cfg c e).1 = Client.acked_packets c.
Proof.
  intros He. destruct e as [r|m|r|]; simpl.
  - unfold Client.start_step, Client.send_packet.
    repeat case_match; simplify_eq; done.
  - by destruct (He m).
  - destruct (Client.running c); [|done].
    by rewrite (handle_retransmissions_shape cfg c r).
  - done.
Qed.

Lemma fresh_process s q :
  q ∉ Server.received_packets s →
  let s' := Server.process_sequence_number s q in
  Server.total_packets_received s' = Server.total_packets_received s + 1 ∧
  Server.retransmission_stats s' = Server.retransmission_stats s ∧
  Server.goodput_measurements s' = Server.goodput_measurements s.
Proof.
  intros Hq. unfold Server.process_sequence_number.
  by rewrite bool_decide_eq_false_2 by done.
Qed.

Lemma handle_client_measurements s m :
  counted s →
  let s1 := at_measurement s m in
  Server.goodput_measurements (Server.handle_client s m).1
  = Server.goodput_measurements s ++
      (if Server.measurement_due s1
       then [ratio (Server.total_packets_received s1)
                   (Server.total_packets_expected s1)]
       else []) ∧
  Server.total_packets_received (Server.handle_client s m).1
  = Server.total_packets_received s1 ∧
  Server.retransmission_stats (Server.handle_client s m).1
  = Server.retransmission_stats s1.
Proof.
  intros Hs s1.
  pose proof (counted_at_measurement s m Hs) as Hs1. fold s1 in Hs1.
  pose proof (at_measurement_expected s m) as He1. fold s1 in He1.
  pose proof (at_measurement_goodputs s m) as Hg. fold s1 in Hg.
  assert (Hpos : 0 < Server.total_packets_expected s1).
  { destruct Hs as [Hr He _ _]. lia. }
  pose proof (measure_counted s1 Hs1 Hpos) as Hm.
  unfold Server.handle_client. fold (at_measurement s m). fold s1.
  rewrite Hm. clearbody s1.
  destruct (Server.measurement_due s1); simpl; rewrite Hg; [done|].
  by rewrite app_nil_r.
Qed.

Lemma linked_client_step cfg s e :
  (∀ m, e ≠ Client.Ack m) → linked cfg s → linked cfg (Link.client_step cfg s e).
Proof.
  intros He [Hf Hq Hb Hbl Hl Ha Htc Hw Hfr Han Hc Hu Hg].
  destruct s as [c sv ts tc]; simpl in *.
  unfold Link.client_step. simpl.
  pose proof (step_announced cfg c e Hf Hq) as Hstep.
  pose proof (first_sent_step cfg c e Hf) as Hf'.
  pose proof (queued_step cfg c e Hq) as Hq'.
  pose proof (step_base cfg c e (proj2 Hb)) as Hb'.
  pose proof (acked_below_step cfg c e Hbl) as Hbl'.
  destruct (sending_keeps_acks cfg c e He) as [Ebase Eacked].
  destruct (Client.step cfg c e) as [c' out]. simpl in *.
  destruct Hstep as [(-> & Hset & _)|(q & -> & Hfresh & Hqn & Hset & _)].
  - split; simpl; rewrite ?app_nil_r, ?Ebase, ?Eacked; try done; [lia|congruence].
  - rewrite <- Han in Hfresh. apply not_elem_of_union in Hfresh as [Hqw Hqr].
    rewrite elem_of_list_to_set in Hqw.
    split; simpl; rewrite ?Ebase, ?Eacked, ?fmap_app; simpl; try done; [lia| | |].
    + apply NoDup_app. split; [done|]. split; [|apply NoDup_singleton].
      by intros x Hx ->%list_elem_of_singleton.
    + intros x [Hx| ->%list_elem_of_singleton]%elem_of_app; [by apply Hfr|done].
    + rewrite Hset, <- Han, list_to_set_app_L. simpl.
      apply set_eq. intros x. rewrite !elem_of_union, elem_of_empty. tauto.
Qed.

Lemma linked_step cfg s e : linked cfg s → linked cfg (Link.step cfg s e).
Proof.
  intros Hinv. destruct e as [r|r| |]; simpl.
  - by apply linked_client_step.
  - by apply linked_client_step.
  - (* the receiver reads an announcement *)
    destruct Hinv as [Hf Hq Hb Hbl Hl Ha Htc Hw Hfr Han Hc Hu Hg].
    destruct s as [c sv ts tc]; simpl in *.
    destruct ts as [|m ts]; [by split|]. simpl in *.
    apply NoDup_cons in Hw as [Hm Hw].
    assert (Hnew : Wire.seq_num m ∉ Server.received_packets sv) by (apply Hfr; left).
    destruct (handle_client_ack sv m) as [Hack Hexp].
    { destruct Hc as [Hr Hle _ _]. lia. }
    destruct (handle_client_effect sv m) as (Hrec & _ & _ & _).
    destruct (handle_client_measurements sv m Hc) as (Hgs & Htr & Hrs).
    pose proof (counted_handle_client sv m Hc) as Hc'.
    destruct (fresh_process sv (Wire.seq_num m) Hnew) as (Hn1 & Hr1 & _).
    destruct (Server.handle_client sv m) as [sv' ack]. cbn [fst snd] in *. subst ack.
    destruct Hu as [Hu1 Hu2].
    assert (Heq : Server.total_packets_received sv' = Server.total_packets_expected sv').
    { rewrite Htr, Hexp. unfold at_measurement. simpl. lia. }
    split; simpl; try done.
    + rewrite Hrec. etrans; [exact Ha|apply union_subseteq_r].
    + apply Forall_app. split.
      * eapply Forall_impl; [exact Htc|]. simpl. intros a (q & -> & Hq').
        exists q. split; [done|]. rewrite Hrec. apply elem_of_union. by right.
      * apply Forall_singleton. exists (Wire.seq_num m). split; [done|].
        rewrite Hrec. apply elem_of_add.
    + intros q Hq'. rewrite Hrec.
      intros [->%elem_of_singleton|Hin]%elem_of_union; [done|].
      by apply (Hfr q); [right|].
    + rewrite <- Han, Hrec. apply set_eq. intros x.
      rewrite !elem_of_union, elem_of_singleton. tauto.
    + split; [done|]. rewrite Hrs. unfold at_measurement. simpl. congruence.
    + rewrite Hgs. apply Forall_app. split; [done|].
      destruct (Server.measurement_due _) eqn:Edue; [|constructor].
      apply Forall_singleton.
      apply andb_true_iff in Edue as [_ Hpos%Z.ltb_lt].
      pose proof (at_measurement_expected sv m) as He1.
      assert (Hr1' : Server.total_packets_received (at_measurement sv m)
                     = Server.total_packets_received sv + 1) by exact Hn1.
      rewrite Hr1', He1, Hu1. apply ratio_self.
      rewrite Hr1', Hu1 in Hpos. exact Hpos.
  - (* the sender reads an acknowledgment *)
    destruct Hinv as [Hf Hq Hb Hbl Hl Ha Htc Hw Hfr Han Hc Hu Hg].
    destruct s as [c sv ts tc]; simpl in *.
    destruct tc as [|a tc]; [by split|]. simpl in *.
    apply Forall_cons in Htc as [(q & -> & Hqr) Htc].
    pose proof (first_sent_step cfg c (Client.Ack (Wire.ack_of_server q)) Hf) as Hf'.
    pose proof (queued_step cfg c (Client.Ack (Wire.ack_of_server q)) Hq) as Hq'.
    pose proof (step_base cfg c (Client.Ack (Wire.ack_of_server q)) (proj2 Hb)) as Hb'.
    pose proof (acked_below_step cfg c (Client.Ack (Wire.ack_of_server q)) Hbl) as Hbl'.
    simpl in Hf', Hq', Hb', Hbl'.
    destruct (Client.running c); simpl in *; [|by split].
    assert (Hacked : Client.acked_packets (Client.receive_acks c (Wire.ack_of_server q))
                     ⊆ Server.received_packets sv).
    { rewrite receive_acks_adds. apply union_least; [|done].
      by intros x ->%elem_of_singleton. }
    assert (Hann : announced (Client.receive_acks c (Wire.ack_of_server q)) = announced c).
    { by rewrite receive_acks_shape. }
    split; simpl; try done; [lia| |congruence].
    (* the base is not acknowledged *)
    pose proof (receive_acks_adds c q) as Hadds.
    unfold Client.receive_acks, Wire.ack_of_server in *.
    rewrite lookup_singleton_eq in *. replace (q + 1 - 1) with q in * by lia.
    case_bool_decide as Hqa; [done|]. simpl in *.
    destruct (Z.eqb_spec q (Client.base c)) as [Heq|Hne]; simpl in *.
    + set (s1 := Client.set_acked_packets ({[q]} ∪ Client.acked_packets c) c) in *.
      pose proof (find_new_base_exit s1) as Hexit.
      assert (Hgoal : Client.find_new_base s1 ∉ {[q]} ∪ Client.acked_packets c).
      { intros Hin. apply andb_false_iff in Hexit as [Hex|Hex].
        - apply bool_decide_eq_false_1 in Hex. by apply Hex.
        - apply Z.ltb_ge in Hex. simpl in Hex.
          assert (Hr : Client.find_new_base s1 ∈ announced c).
          { rewrite <- Han. apply elem_of_union. right. apply Hacked.
            destruct (Client.window_size c <? 100); simpl; exact Hin. }
          apply (announced_bound cfg c _ Hf Hq) in Hr. lia. }
      by destruct (Client.window_size c <? 100).
    + intros [Hx%elem_of_singleton|Hin]%elem_of_union; [by apply Hne|done].
Qed.

Lemma linked_init cfg w : linked cfg (Link.init w).
Proof.
  split; simpl; try done; try lia.
  - split; simpl; try done; constructor.
  - apply NoDup_nil_2.
Qed.

Lemma linked_run cfg w evs : linked cfg (Link.run cfg (Link.init w) evs).
Proof.
  induction evs as [|e evs IH] using rev_ind; [apply linked_init|].
  rewrite link_run_snoc. by apply linked_step.
Qed.

(** X9.  Sender and [server.py] receiver joined by FIFO streams, with any
    loss and any interleaving: the base is the least number not yet
    acknowledged, every acknowledged number has been received, and every
    received number has been admitted. *)
Theorem base_is_the_least_unacknowledged cfg w evs :
  let s := Link.run cfg (Link.init w) evs in
  let c := Link.client s in
  (prefix_set (Client.base c) ⊆ Client.acked_packets c) ∧
  (Client.base c ∉ Client.acked_packets c) ∧
  (Client.acked_packets c ⊆ Server.received_packets (Link.server s)) ∧
  (Server.received_packets (Link.server s) ⊆ prefix_set (Client.next_seq_num c)).
Proof.
  intros s c.
  destruct (linked_run cfg w evs) as [Hf Hq _ Hbl Hl Ha _ _ _ Han _ _ _].
  fold s in Hf, Hq, Hbl, Hl, Ha, Han. fold c in Hf, Hq, Hbl, Hl, Ha, Han.
  refine (conj _ (conj Hl (conj Ha _))).
  - intros x Hx%elem_of_prefix_set. by apply Hbl.
  - intros x Hx. apply elem_of_prefix_set. apply (announced_bound cfg c x Hf Hq).
    rewrite <- Han. apply elem_of_union. by right.
Qed.

(** X10.  In the same runs no number reaches the receiver twice: the
    numbers on the wire are distinct and not yet received,
    [retransmission_stats] stays empty, received and expected counts
    coincide, and every goodput measured is 1. *)
Theorem receiver_never_sees_a_duplicate cfg w evs :
  let s := Link.run cfg (Link.init w) evs in
  let sv := Link.server s in
  NoDup (Wire.seq_num <$> Link.to_server s) ∧
  Forall (λ q, q ∉ Server.received_packets sv) (Wire.seq_num <$> Link.to_server s) ∧
  Server.retransmission_stats sv = ∅ ∧
  Server.total_packets_received sv = Server.total_packets_expected sv ∧
  Z.of_nat (size (Server.received_packets sv)) = Server.total_packets_expected sv ∧
  Forall (λ g, (g == 1)%Q) (Server.goodput_measurements sv).
Proof.
  intros s sv.
  destruct (linked_run cfg w evs) as [_ _ _ _ _ _ _ Hw Hfr _ [Hc _ _ _] [Hu1 Hu2] Hg].
  fold s in Hw, Hfr, Hc, Hu1, Hu2, Hg. fold sv in Hfr, Hc, Hu1, Hu2, Hg.
  split; [done|]. split; [by apply Forall_forall|]. split; [done|].
  split; [done|]. split; [congruence|done].
Qed.

(** X11.  Without loss, for any number N of packets and initial window w
    with w + N at most 100: when the main thread has finished, exactly
    0 .. N-1 are acknowledged, nothing was dropped or retransmitted, and the
    window size is w + N. *)
Theorem lossless_run_of_any_size cfg w N evs :
  Client.drop_probability cfg = 0%Q → Client.total_packets cfg = N →
  0 ≤ N → w + N ≤ 100 → forallb Link.draw_ok evs = true →
  let c := Link.client (Link.run cfg (Link.init w) evs) in
  Client.pc c = Client.Finished →
  Client.acked_packets c = prefix_set N ∧
  Client.base c = N ∧ Client.next_seq_num c = N ∧
  Client.window_size c = w + N ∧
  Client.total_sent c = N ∧ Client.total_dropped c = 0 ∧
  Client.total_retransmitted c = 0.
Proof.
  intros Hp HN H0 Hw Hok c Hfin.
  destruct (lossless_run cfg N w evs Hp HN H0 Hw Hok) as (a & b & n & Hinv).
  destruct Hinv as [Ho Hb Hn Hws Hack Hs Hd Hr Hq Htc Hts Hsv Hpc].
  fold c in Hb, Hn, Hws, Hack, Hs, Hd, Hr, Hpc. rewrite Hfin in Hpc.
  assert (Hn' : n = N) by lia.
  rewrite Hack, Hb, Hn, Hws, Hs, Hd, Hr, Hpc, Hn'. done.
Qed.

Lemma stop_and_wait_witness :
  let c := Link.client (Link.run (lossless_cfg 7) (Link.init 1) lockstep_schedule) in
  forallb Link.draw_ok lockstep_schedule = true ∧
  Client.pc c = Client.Finished ∧
  Client.acked_packets c = prefix_set 10 ∧ Client.window_size c = 1 + 10.
Proof.
  split; [reflexivity|]. split; [vm_compute; reflexivity|].
  destruct (lossless_run_of_any_size (lossless_cfg 7) 1 10 lockstep_schedule)
    as (Ha & _ & _ & Hw & _); try (vm_compute; reflexivity); try lia.
  split; [exact Ha|exact Hw].
Defined.

(** ** The added definitions on concrete runs *)

(** The run with one dropped first transmission: packet 1 reaches the
    socket first, then the retransmitted packet 0. *)
Example drop_run_trace_and_table :
  let s := Client.run drop_cfg (Client.started 4) drop_run in
  Wire.seq_num <$> client_trace drop_cfg (Client.started 4) drop_run = [1; 0] ∧
  retransmission_table (Client.retransmission_counts s)
  = [(1, 1); (2, 0); (3, 0); (4, 0)].
Proof. split; vm_compute; reflexivity. Qed.

(** Five announcements, two of them repeats of number 1. *)
Example duplicates_are_counted :
  let s := Server.run Server.init (announce <$> [0; 1; 1; 3; 1]) in
  Server.total_packets_expected s = 5 ∧
  Server.total_packets_received s = 3 ∧
  sum_values (Server.retransmission_stats s) = 2 ∧
  Server.seq_nums_dropped s = [2].
Proof. repeat split; vm_compute; reflexivity. Qed.
